(** * PVKenyaEngineer: labelled-instance extraction for the Kenya crop mask

    A shallow embedding of [src/engineer/pv_kenya.py].  The label table is a
    list of rows in table order, the class index is a finite map from crop
    type to integer id, and [process_single_file] is a computation in a small
    state-and-exception monad whose state is the engineer object [self]. *)

From Stdlib Require Import QArith Qabs Qminmax.
From stdpp Require Import gmap strings list fin_maps.

Local Open Scope string_scope.
Local Open Scope list_scope.

(** ** Numbers

    Python floats are modelled as exact rationals plus one not-a-number
    value.  Coordinates (WGS84 degrees, raster coordinate vectors) are [Q];
    raster values, which may be missing, are [float]. *)

Inductive float : Type :=
  | NaN
  | Num (q : Q).

Definition isnan (v : float) : bool :=
  match v with NaN => true | Num _ => false end.

(** ** The label table *)

Record LabelRow : Type := mkLabelRow {
  lat : Q;
  lon : Q;
  crop_type : option string
}.

Abbreviation LabelTable := (list LabelRow).

(** ** The class index, [PVKenyaEngineer.__init__] lines 32-36 *)

(** [Series.unique()]: the distinct values in order of first appearance. *)
Fixpoint unique_from {A} `{EqDecision A} (seen : list A) (l : list A) : list A :=
  match l with
  | [] => []
  | v :: l' =>
      if decide (v ∈ seen) then unique_from seen l'
      else v :: unique_from (v :: seen) l'
  end.

Definition unique {A} `{EqDecision A} (l : list A) : list A := unique_from [] l.

(** [unique_classes[unique_classes != np.array(None)]] *)
Definition drop_none {A} (l : list (option A)) : list A := omap id l.

(** [enumerate] *)
Fixpoint enumerate_from {A} (start : nat) (l : list A) : list (nat * A) :=
  match l with
  | [] => []
  | v :: l' => (start, v) :: enumerate_from (S start) l'
  end.

Definition enumerate {A} (l : list A) : list (nat * A) := enumerate_from 0 l.

(** [{crop: idx for idx, crop in ...}]: keys are inserted left to right, a
    later pair overwrites an earlier one with the same key. *)
Definition dict_of_enumerated (ps : list (nat * string)) : gmap string nat :=
  foldl (fun d p => <[snd p := fst p]> d) ∅ ps.

Definition unique_classes (labels : LabelTable) : list (option string) :=
  unique (map crop_type labels).

Definition build_classes_to_index (labels : LabelTable) : gmap string nat :=
  dict_of_enumerated (enumerate (drop_none (unique_classes labels))).

(** ** Arrays and rasters *)

(** A numpy array, as its entries in row-major order. *)
Abbreviation ndarray := (list float).

(** Python exceptions that can leave [process_single_file]. *)
Inductive exn : Type :=
  | ValueError
  | KeyError (key : string)
  | IndexError
  | TypeError
  | IOError.

Inductive outcome (A : Type) : Type :=
  | Returned (a : A)
  | Raised (e : exn).
Arguments Returned {A} a.
Arguments Raised {A} e.

(** Modelled from the spec: the methods [PVKenyaEngineer] inherits from
    [BaseEngineer] (src/engineer/base.py, absent from the sources) and the
    operations of the loaded xarray raster, as an interface.  The
    specification leaves to the raster backend how a tile is loaded and a
    cell selected, the 3x3 neighbourhood and its edge policy (4.3), the band
    convention of the spectral indices (4.4) and the per-channel reduction
    fed to the running statistics (4.6).  [process_autoencoder] returns a
    batch of arrays or nothing (4.7); the two normalization accumulators are
    the only shared mutable state and are mutated by labelled extractions
    only (3, 5), so the sampler is a function of its arguments. *)
Class BaseEngineer : Type := {
  Path : Type;
  datetime : Type;
  DataArray : Type;
  da_x : DataArray -> list Q;
  da_y : DataArray -> list Q;
  da_sel : DataArray -> Q -> Q -> ndarray;
  load_tif : Path -> Z -> datetime -> outcome DataArray;
  get_surrounding_pixels : DataArray -> nat -> nat -> ndarray;
  calculate_ndvi : ndarray -> ndarray;
  calculate_ndwi : ndarray -> ndarray;
  channel_stats : ndarray -> list float;
  process_autoencoder :
    DataArray -> option ndarray -> bool -> bool -> float -> bool -> bool -> Z ->
    option ndarray
}.

(** ** Nearest-cell lookup *)

Definition Qltb (a b : Q) : bool := negb (Qle_bool b a).

(** Index of the first minimum of [d :: l], scanning left to right. *)
Fixpoint argmin_from (best : nat) (best_val : Q) (i : nat) (l : list Q) : nat :=
  match l with
  | [] => best
  | d :: l' =>
      if Qltb d best_val then argmin_from i d (S i) l'
      else argmin_from best best_val (S i) l'
  end.

Definition argmin (l : list Q) : outcome nat :=
  match l with
  | [] => Raised ValueError
  | d :: l' => Returned (argmin_from 0 d 1 l')
  end.

(** Modelled from the spec: [BaseEngineer.find_nearest] is absent from the
    sources.  Specification 4.2: given a scalar target and the coordinate
    vector, the closest coordinate value and its integer index, minimum
    absolute difference with ties broken by first occurrence. *)
Definition find_nearest (array : list Q) (value : Q) : outcome (Q * nat) :=
  match argmin (map (fun a => Qabs (a - value)) array) with
  | Raised e => Raised e
  | Returned idx =>
      match array !! idx with
      | Some closest => Returned (closest, idx)
      | None => Raised IndexError
      end
  end.

(** ** NaN capping *)

Definition nan_to_num (array : ndarray) (nan : float) : ndarray :=
  map (fun v => if isnan v then nan else v) array.

Definition count_nan (array : ndarray) : nat := length (List.filter isnan array).

(** Fraction of NaN entries; [0] for an array without entries. *)
Definition nan_ratio (array : ndarray) : Q :=
  inject_Z (Z.of_nat (count_nan array)) / inject_Z (Z.of_nat (length array)).

(** [ratio > max_ratio] on floats: false when [max_ratio] is NaN. *)
Definition exceeds (ratio : Q) (max_ratio : float) : bool :=
  match max_ratio with
  | NaN => false
  | Num r => Qltb r ratio
  end.

(** Modelled from the spec: [BaseEngineer.maxed_nan_to_num] is absent from
    the sources.  Specification 4.5: replaces NaN entries with [nan]; if
    [max_ratio] is given and the fraction of NaN entries exceeds it, the
    array is rejected (absent) rather than filled. *)
Definition maxed_nan_to_num (array : ndarray) (nan : float)
    (max_ratio : option float) : option ndarray :=
  match max_ratio with
  | Some r =>
      if exceeds (nan_ratio array) r then None
      else Some (nan_to_num array nan)
  | None => Some (nan_to_num array nan)
  end.

(** ** Running normalization statistics *)

Definition fbinop (op : Q -> Q -> Q) (a b : float) : float :=
  match a, b with
  | Num x, Num y => Num (op x y)
  | _, _ => NaN
  end.

Definition fadd : float -> float -> float := fbinop Qplus.
Definition fsub : float -> float -> float := fbinop Qminus.
Definition fmul : float -> float -> float := fbinop Qmult.
Definition fdiv : float -> float -> float := fbinop Qdiv.

(** Count, running mean and running sum of squared deviations, the latter
    two per feature channel. *)
Record NormDict : Type := mkNormDict {
  n : Z;
  mean : list float;
  M2 : list float
}.

Definition empty_norm_dict : NormDict := {| n := 0; mean := []; M2 := [] |}.

(** One Welford step for one channel: the new mean and the new [M2]. *)
Definition welford (count : Z) (x m s : float) : float * float :=
  let delta := fsub x m in
  let m' := fadd m (fdiv delta (Num (inject_Z count))) in
  (m', fadd s (fmul delta (fsub x m'))).

Definition channel (l : list float) (i : nat) : float := default (Num 0) (l !! i).

Section Collaborators.
Context `{BaseEngineer}.

(** Modelled from the spec: the fold performed by
    [BaseEngineer.update_normalizing_values], which is absent from the
    sources.  Specification 3 and 4.6: the accumulator holds a count, a mean
    and a variance accumulator per feature channel; one extraction folds the
    array's per-channel statistics into it as one sample, by a Welford-style
    incremental update. *)
Definition fold_sample (norm_dict : NormDict) (array : ndarray) : NormDict :=
  let count := (n norm_dict + 1)%Z in
  let step := fun i x =>
    welford count x (channel (mean norm_dict) i) (channel (M2 norm_dict) i) in
  let xs := channel_stats array in
  {| n := count;
     mean := imap (fun i x => (step i x).1) xs;
     M2 := imap (fun i x => (step i x).2) xs |}.

(** Modelled from the spec: [BaseEngineer.update_normalizing_values] is
    absent from the sources.  On an array it is the fold of specification
    4.6.  Line 116 may hand it Python's [None], the labelled array the NaN
    gate rejected: the specification makes that rejection non-fatal (7) and
    has the accumulators mutated by successful extractions only (3), so on
    [None] the call returns and the accumulator is as before. *)
Definition update_normalizing_values (norm_dict : NormDict)
    (array : option ndarray) : outcome NormDict :=
  match array with
  | None => Returned norm_dict
  | Some a => Returned (fold_sample norm_dict a)
  end.

(** ** The engineer object and its methods *)

Record PVKenyaDataInstance : Type := mkInstance {
  label_lat : Q;
  label_lon : Q;
  instance_lat : Q;
  instance_lon : Q;
  labelled_array : ndarray;
  crop_label : string;
  crop_int : nat;
  surrounding_array : option ndarray
}.

Record PVKenyaEngineer : Type := mkEngineer {
  labels : LabelTable;
  classes_to_index : gmap string nat;
  normalizing_dict_interim : NormDict;
  surrounding_normalizing_dict_interim : NormDict
}.

(** [__init__]: the base class loads the label table and starts both
    accumulators empty; lines 32-36 build the class index. *)
Definition __init__ (label_table : LabelTable) : PVKenyaEngineer :=
  {| labels := label_table;
     classes_to_index := build_classes_to_index label_table;
     normalizing_dict_interim := empty_norm_dict;
     surrounding_normalizing_dict_interim := empty_norm_dict |}.

(** Computations on [self]: the object's fields persist when an exception
    is raised. *)
Definition M (A : Type) : Type := PVKenyaEngineer -> outcome A * PVKenyaEngineer.

#[export] Instance M_ret : MRet M := fun A a self => (Returned a, self).

#[export] Instance M_bind : MBind M := fun A B k c self =>
  match c self with
  | (Returned a, self') => k a self'
  | (Raised e, self') => (Raised e, self')
  end.

Definition lift {A} (o : outcome A) : M A := fun self => (o, self).

Definition get_self : M PVKenyaEngineer := fun self => (Returned self, self).

(** [update_normalizing_values(self.normalizing_dict_interim, array)] *)
Definition update_labelled_stats (array : option ndarray) : M unit := fun self =>
  match update_normalizing_values (normalizing_dict_interim self) array with
  | Returned d =>
      (Returned tt,
       {| labels := labels self;
          classes_to_index := classes_to_index self;
          normalizing_dict_interim := d;
          surrounding_normalizing_dict_interim :=
            surrounding_normalizing_dict_interim self |})
  | Raised e => (Raised e, self)
  end.

(** [update_normalizing_values(self.surrounding_normalizing_dict_interim, array)] *)
Definition update_surrounding_stats (array : option ndarray) : M unit := fun self =>
  match update_normalizing_values (surrounding_normalizing_dict_interim self) array with
  | Returned d =>
      (Returned tt,
       {| labels := labels self;
          classes_to_index := classes_to_index self;
          normalizing_dict_interim := normalizing_dict_interim self;
          surrounding_normalizing_dict_interim := d |})
  | Raised e => (Raised e, self)
  end.

(** [float(da.x.min())], [float(da.x.max())] *)
Definition vec_min (l : list Q) : outcome Q :=
  match l with
  | [] => Raised ValueError
  | v :: l' => Returned (foldl Qmin v l')
  end.

Definition vec_max (l : list Q) : outcome Q :=
  match l with
  | [] => Raised ValueError
  | v :: l' => Returned (foldl Qmax v l')
  end.

(** [self.classes_to_index[crop_type]] *)
Definition dict_get (d : gmap string nat) (key : string) : outcome nat :=
  match d !! key with
  | Some v => Returned v
  | None => Raised (KeyError key)
  end.

(** The row mask of lines 72-77. *)
Definition in_extent (min_lon max_lon min_lat max_lat : Q) (row : LabelRow) : bool :=
  Qle_bool (lon row) max_lon && Qle_bool min_lon (lon row)
  && Qle_bool (lat row) max_lat && Qle_bool min_lat (lat row).

Definition process_single_file
    (path_to_file : Path) (nan_fill : float) (max_nan_ratio : float)
    (add_ndvi add_ndwi calculate_normalizing_dict : bool)
    (start_date : datetime) (days_per_timestep : Z)
    (is_test return_autoencoder_instances : bool)
    (autoencoder_instances_per_label : Z)
  : M (option PVKenyaDataInstance * option ndarray) :=
  da ← lift (load_tif path_to_file days_per_timestep start_date);
  min_lon ← lift (vec_min (da_x da));
  min_lat ← lift (vec_min (da_y da));
  max_lon ← lift (vec_max (da_x da));
  max_lat ← lift (vec_max (da_y da));
  self ← get_self;
  let overlap :=
    List.filter (in_extent min_lon max_lon min_lat max_lat) (labels self) in
  '(data_instance, labelled_array) ←
    match overlap with
    | [] => mret (None, None)
    | first_row :: _ =>
        let label_lat := lat first_row in
        let label_lon := lon first_row in
        match crop_type first_row with
        | None => mret (None, None)
        | Some crop_type =>
            crop_int ← lift (dict_get (classes_to_index self) crop_type);
            '(closest_lon, lon_idx) ← lift (find_nearest (da_x da) label_lon);
            '(closest_lat, lat_idx) ← lift (find_nearest (da_y da) label_lat);
            let labelled_np := da_sel da closest_lon closest_lat in
            let surrounding_np := get_surrounding_pixels da lat_idx lon_idx in
            let labelled_np :=
              if add_ndvi then calculate_ndvi labelled_np else labelled_np in
            let surrounding_np :=
              if add_ndvi then calculate_ndvi surrounding_np else surrounding_np in
            let labelled_np :=
              if add_ndwi then calculate_ndwi labelled_np else labelled_np in
            let surrounding_np :=
              if add_ndwi then calculate_ndwi surrounding_np else surrounding_np in
            let labelled_array :=
              maxed_nan_to_num labelled_np nan_fill (Some max_nan_ratio) in
            let surrounding_np := maxed_nan_to_num surrounding_np nan_fill None in
            _ ← (if negb is_test && calculate_normalizing_dict
                 then _ ← update_labelled_stats labelled_array;
                      update_surrounding_stats surrounding_np
                 else mret tt);
            match labelled_array with
            | Some array =>
                mret (Some {| label_lat := label_lat;
                              label_lon := label_lon;
                              instance_lat := closest_lat;
                              instance_lon := closest_lon;
                              labelled_array := array;
                              crop_label := crop_type;
                              crop_int := crop_int;
                              surrounding_array := surrounding_np |},
                      labelled_array)
            | None => mret (None, labelled_array)
            end
        end
    end;
  autoencoder_instances ←
    (if return_autoencoder_instances
     then mret (process_autoencoder da labelled_array add_ndvi add_ndwi nan_fill
                  is_test calculate_normalizing_dict
                  autoencoder_instances_per_label)
     else mret None);
  mret (data_instance, autoencoder_instances).

(** ** Vocabulary for the statements *)

(** The tile's extent, lines 69-70: minimum and maximum of the raster's
    coordinate vectors, absent when a vector has no entry. *)
Definition bounding_box (da : DataArray) : option (Q * Q * Q * Q) :=
  match da_x da, da_y da with
  | x0 :: xs, y0 :: ys =>
      Some (foldl Qmin x0 xs, foldl Qmax x0 xs, foldl Qmin y0 ys, foldl Qmax y0 ys)
  | _, _ => None
  end.

(** The rows of the label table inside the extent, in table order
    (lines 71-78). *)
Definition overlapping_rows (da : DataArray) (label_table : LabelTable)
  : list LabelRow :=
  match bounding_box da with
  | Some (min_lon, max_lon, min_lat, max_lat) =>
      List.filter (in_extent min_lon max_lon min_lat max_lat) label_table
  | None => []
  end.

(** Lines 103-108 on one array. *)
Definition with_indices (add_ndvi add_ndwi : bool) (array : ndarray) : ndarray :=
  let array := if add_ndvi then calculate_ndvi array else array in
  if add_ndwi then calculate_ndwi array else array.

(** Lines 115-119 when both folds go through. *)
Definition with_statistics (labelled surrounding : ndarray)
    (self : PVKenyaEngineer) : PVKenyaEngineer :=
  {| labels := labels self;
     classes_to_index := classes_to_index self;
     normalizing_dict_interim :=
       fold_sample (normalizing_dict_interim self) labelled;
     surrounding_normalizing_dict_interim :=
       fold_sample (surrounding_normalizing_dict_interim self) surrounding |}.

(** Lines 115-119 when the labelled array was rejected: the labelled fold
    receives [None], the surrounding fold its array. *)
Definition with_surrounding_statistics (surrounding : ndarray)
    (self : PVKenyaEngineer) : PVKenyaEngineer :=
  {| labels := labels self;
     classes_to_index := classes_to_index self;
     normalizing_dict_interim := normalizing_dict_interim self;
     surrounding_normalizing_dict_interim :=
       fold_sample (surrounding_normalizing_dict_interim self) surrounding |}.

(** Lines 135-147: the second component of the result. *)
Definition autoencoder_result (return_autoencoder_instances : bool)
    (da : DataArray) (labelled_array : option ndarray)
    (add_ndvi add_ndwi : bool) (nan_fill : float)
    (is_test calculate_normalizing_dict : bool)
    (autoencoder_instances_per_label : Z) : option ndarray :=
  if return_autoencoder_instances
  then process_autoencoder da labelled_array add_ndvi add_ndwi nan_fill
         is_test calculate_normalizing_dict autoencoder_instances_per_label
  else None.

(** A call produced a labelled instance. *)
Definition produces_instance {A S}
    (result : outcome (option PVKenyaDataInstance * A) * S) : Prop :=
  ∃ instance extra self', result = (Returned (Some instance, extra), self').

(** The class index of [self] is the one [__init__] builds from its label
    table; [process_single_file] never changes either. *)
Definition session_of (label_table : LabelTable) (self : PVKenyaEngineer) : Prop :=
  labels self = label_table
  ∧ classes_to_index self = build_classes_to_index label_table.

(** The paths through one call: the tile does not load, it has no extent,
    no row lies inside, the first row inside has no crop type, its crop type
    is not in the class index, or the labelled pixel is extracted. *)
Inductive call_case (path_to_file : Path) (days_per_timestep : Z)
    (start_date : datetime) (self : PVKenyaEngineer) : Prop :=
  | case_load_error (e : exn) :
      load_tif path_to_file days_per_timestep start_date = Raised e →
      call_case path_to_file days_per_timestep start_date self
  | case_no_extent (da : DataArray) :
      load_tif path_to_file days_per_timestep start_date = Returned da →
      bounding_box da = None →
      call_case path_to_file days_per_timestep start_date self
  | case_no_overlap (da : DataArray) :
      load_tif path_to_file days_per_timestep start_date = Returned da →
      is_Some (bounding_box da) →
      overlapping_rows da (labels self) = [] →
      call_case path_to_file days_per_timestep start_date self
  | case_null_crop (da : DataArray) (first_row : LabelRow) (rest : list LabelRow) :
      load_tif path_to_file days_per_timestep start_date = Returned da →
      overlapping_rows da (labels self) = first_row :: rest →
      crop_type first_row = None →
      call_case path_to_file days_per_timestep start_date self
  | case_key_error (da : DataArray) (first_row : LabelRow) (rest : list LabelRow)
      (crop : string) :
      load_tif path_to_file days_per_timestep start_date = Returned da →
      overlapping_rows da (labels self) = first_row :: rest →
      crop_type first_row = Some crop →
      classes_to_index self !! crop = None →
      call_case path_to_file days_per_timestep start_date self
  | case_labelled (da : DataArray) (first_row : LabelRow) (rest : list LabelRow)
      (crop : string) (idx : nat) :
      load_tif path_to_file days_per_timestep start_date = Returned da →
      overlapping_rows da (labels self) = first_row :: rest →
      crop_type first_row = Some crop →
      classes_to_index self !! crop = Some idx →
      call_case path_to_file days_per_timestep start_date self.

End Collaborators.

(** ** A raster backend on lists

    A small implementation of the inherited methods, used to run the engineer
    on concrete tiles: a raster is its two coordinate vectors and one series
    per cell, a file is named by the raster it holds. *)

Record Grid : Type := mkGrid {
  grid_x : list Q;
  grid_y : list Q;
  grid_cells : list (list (list float))
}.

Fixpoint index_of (l : list Q) (v : Q) : option nat :=
  match l with
  | [] => None
  | w :: l' => if Qeq_bool w v then Some 0 else S <$> index_of l' v
  end.

Definition grid_cell (g : Grid) (i j : nat) : list float :=
  default [] (grid_cells g !! i ≫= (fun column => column !! j)).

Definition grid_sel (g : Grid) (x y : Q) : list float :=
  match index_of (grid_x g) x, index_of (grid_y g) y with
  | Some i, Some j => grid_cell g i j
  | _, _ => []
  end.

(** The index [mid + offset - 1] of a neighbour, absent below 0. *)
Definition neighbour (mid offset : nat) : option nat :=
  match mid + offset with
  | O => None
  | S i => Some i
  end.

(** The 3x3 window around a cell; cells beyond the grid, on either side,
    contribute nothing. *)
Definition grid_surrounding (g : Grid) (mid_lat_idx mid_lon_idx : nat) : list float :=
  flat_map (fun dx =>
    flat_map (fun dy =>
      match neighbour mid_lon_idx dx, neighbour mid_lat_idx dy with
      | Some i, Some j => grid_cell g i j
      | _, _ => []
      end) [0; 1; 2]) [0; 1; 2].

(** Normalized difference of two bands, appended as a new channel. *)
Definition difference_index (band_1 band_2 : nat) (array : list float) : list float :=
  let index :=
    match array !! band_1, array !! band_2 with
    | Some (Num p), Some (Num q) =>
        if Qltb 0 (p + q) then Num ((p - q) / (p + q)) else Num 0
    | Some NaN, _ | _, Some NaN => NaN
    | _, _ => Num 0
    end in
  array ++ [index].

Definition grid_autoencoder (g : Grid) (normal_array : option (list float))
    (add_ndvi add_ndwi : bool) (nan_fill : float)
    (is_test calculate_normalizing_dict : bool)
    (autoencoder_instances_per_label : Z) : option (list float) :=
  if (autoencoder_instances_per_label <=? 0)%Z then None
  else Some (nan_to_num (grid_cell g 0 0) nan_fill).

#[export] Instance grid_engineer : BaseEngineer := {|
  Path := option Grid;
  datetime := Z;
  DataArray := Grid;
  da_x := grid_x;
  da_y := grid_y;
  da_sel := grid_sel;
  load_tif := fun path _ _ =>
    match path with Some g => Returned g | None => Raised IOError end;
  get_surrounding_pixels := grid_surrounding;
  calculate_ndvi := difference_index 1 0;
  calculate_ndwi := difference_index 0 1;
  channel_stats := fun array => array;
  process_autoencoder := grid_autoencoder
|}.

(** A 2x2 tile over longitudes 36, 37 and latitudes 0, 1 with two bands per
    cell and no missing value. *)
Definition clean_tile : Grid :=
  {| grid_x := [36 # 1; 37 # 1];
     grid_y := [0 # 1; 1 # 1];
     grid_cells := [ [ [Num 1; Num 3]; [Num 2; Num 2] ];
                     [ [Num 4; Num 1]; [Num 5; Num 5] ] ] |}.

(** The same tile with the series at (36, 0) missing. *)
Definition cloudy_tile : Grid :=
  {| grid_x := [36 # 1; 37 # 1];
     grid_y := [0 # 1; 1 # 1];
     grid_cells := [ [ [NaN; NaN]; [Num 2; Num 2] ];
                     [ [Num 4; Num 1]; [Num 5; Num 5] ] ] |}.

(** The tile with every series but the one at (36, 0) missing. *)
Definition hazy_tile : Grid :=
  {| grid_x := [36 # 1; 37 # 1];
     grid_y := [0 # 1; 1 # 1];
     grid_cells := [ [ [Num 1; Num 3]; [NaN; Num 2] ];
                     [ [NaN; NaN]; [Num 5; NaN] ] ] |}.

Definition maize_row : LabelRow := mkLabelRow (1 # 4) (145 # 4) (Some "maize").
Definition tea_row : LabelRow := mkLabelRow (3 # 4) (147 # 4) (Some "tea").
Definition unnamed_row : LabelRow := mkLabelRow (1 # 2) (73 # 2) None.
Definition far_tea_row : LabelRow := mkLabelRow (5 # 1) (40 # 1) (Some "tea").

(** One call on the list backend: fill value 0, NDVI on, NDWI off, three
    autoencoder instances per label. *)
Definition extract (tile : option Grid) (max_nan_ratio : float)
    (calculate_normalizing_dict is_test return_autoencoder_instances : bool)
  : M (option PVKenyaDataInstance * option (list float)) :=
  process_single_file (H := grid_engineer) tile (Num 0) max_nan_ratio true false
    calculate_normalizing_dict 0%Z 10%Z is_test return_autoencoder_instances 3%Z.

(** The instance extracted for [maize_row] from [clean_tile]. *)
Definition maize_instance : PVKenyaDataInstance :=
  {| label_lat := 1 # 4;
     label_lon := 145 # 4;
     instance_lat := 0 # 1;
     instance_lon := 36 # 1;
     labelled_array := [Num 1; Num 3; Num (2 # 4)];
     crop_label := "maize";
     crop_int := 0;
     surrounding_array :=
       Some [Num 1; Num 3; Num 2; Num 2; Num 4; Num 1; Num 5; Num 5; Num (2 # 4)] |}.

(** The instance extracted for [maize_row] from [hazy_tile]. *)
Definition hazy_instance : PVKenyaDataInstance :=
  {| label_lat := 1 # 4;
     label_lon := 145 # 4;
     instance_lat := 0 # 1;
     instance_lon := 36 # 1;
     labelled_array := [Num 1; Num 3; Num (2 # 4)];
     crop_label := "maize";
     crop_int := 0;
     surrounding_array :=
       Some [Num 1; Num 3; Num 0; Num 2; Num 0; Num 0; Num 5; Num 0; Num (2 # 4)] |}.

(** ** The persisted class index, line 38

    [json.dump] writes the items of [self.classes_to_index] in the order the
    dictionary holds them.  A Python dict keeps its keys in insertion order:
    assigning to a key already present replaces its value in place, a new
    key goes last. *)
Fixpoint dict_set (items : list (string * nat)) (key : string) (value : nat)
  : list (string * nat) :=
  match items with
  | [] => [(key, value)]
  | (k, v) :: items' =>
      if decide (k = key) then (k, value) :: items'
      else (k, v) :: dict_set items' key value
  end.

(** The items of [{crop: idx for idx, crop in ...}]. *)
Definition items_of_enumerated (ps : list (nat * string)) : list (string * nat) :=
  foldl (fun items p => dict_set items (snd p) (fst p)) [] ps.

(** The items handed to [json.dump] by [__init__]. *)
Definition classes_to_index_items (label_table : LabelTable) : list (string * nat) :=
  items_of_enumerated (enumerate (drop_none (unique_classes label_table))).

(** Rows that carry a crop type. *)
Definition has_crop_type (row : LabelRow) : bool :=
  match crop_type row with Some _ => true | None => false end.

Definition far_maize_row : LabelRow := mkLabelRow (5 # 1) (40 # 1) (Some "maize").
Definition corner_row : LabelRow := mkLabelRow (1 # 1) (37 # 1) (Some "tea").

(** A raster without cells. *)
Definition empty_tile : Grid := {| grid_x := []; grid_y := []; grid_cells := [] |}.

(** An engineer whose class index lacks the crop types of its label table,
    as after [self.labels] was replaced without rebuilding the index. *)
Definition stale_engineer : PVKenyaEngineer :=
  {| labels := [maize_row];
     classes_to_index := <["tea" := 0]> ∅;
     normalizing_dict_interim := empty_norm_dict;
     surrounding_normalizing_dict_interim := empty_norm_dict |}.

(** * The class index *)

Section Unique.
Context {A : Type} `{EqDecision A}.

Lemma elem_of_unique_from (seen l : list A) (v : A) :
  v ∈ unique_from seen l ↔ v ∈ l ∧ v ∉ seen.
Proof.
  revert seen. induction l as [|w l IH]; intros seen; simpl.
  - split; [intros Hin; inversion Hin | intros [Hin _]; inversion Hin].
  - destruct (decide (w ∈ seen)) as [Hw|Hw].
    + rewrite IH, elem_of_cons. split.
      * intros [? ?]; auto.
      * intros [[->|?] ?]; [contradiction | auto].
    + rewrite elem_of_cons, IH, !elem_of_cons. split.
      * intros [->|[? Hns]]; [auto|]. split; [auto|].
        intros Hs. apply Hns. by right.
      * intros [[->|Hin] Hns]; [by left|].
        destruct (decide (v = w)) as [->|Hne]; [by left|].
        right. split; [done|]. by intros [?|?].
Qed.

Lemma NoDup_unique_from (seen l : list A) : NoDup (unique_from seen l).
Proof.
  revert seen. induction l as [|w l IH]; intros seen; simpl.
  - constructor.
  - destruct (decide (w ∈ seen)); [apply IH|].
    constructor; [|apply IH].
    rewrite elem_of_unique_from, elem_of_cons. intros [_ Hn]. apply Hn. by left.
Qed.


End Unique.

Lemma elem_of_drop_none {A} (l : list (option A)) (v : A) :
  v ∈ drop_none l ↔ Some v ∈ l.
Proof.
  unfold drop_none. rewrite list_elem_of_omap. split.
  - intros (o & Hin & Ho). simpl in Ho. by subst.
  - intros Hin. by exists (Some v).
Qed.

Lemma NoDup_drop_none {A} (l : list (option A)) : NoDup l → NoDup (drop_none l).
Proof.
  unfold drop_none. induction 1 as [|o l Hnin Hnd IH]; simpl; [constructor|].
  destruct o as [v|]; simpl; [|done].
  constructor; [|done]. by rewrite (elem_of_drop_none l v).
Qed.


Lemma dict_of_enumerated_from (cs : list string) (start : nat)
    (d : gmap string nat) (c : string) (i : nat) :
  NoDup cs →
  foldl (fun d p => <[snd p := fst p]> d) d (enumerate_from start cs) !! c = Some i ↔
  (∃ k, cs !! k = Some c ∧ i = (start + k)%nat) ∨ ((c ∉ cs) ∧ d !! c = Some i).
Proof.
  revert start d. induction cs as [|c0 cs IH]; intros start d Hnd; simpl.
  - split.
    + intros Hd. right. split; [apply not_elem_of_nil | done].
    + intros [(k & Hk & _)|[_ Hd]]; [by rewrite lookup_nil in Hk | done].
  - apply NoDup_cons in Hnd as [Hnin Hnd]. rewrite (IH _ _ Hnd). split.
    + intros [(k & Hk & ->)|[Hn Hd]].
      * left. exists (S k). split; [done | lia].
      * destruct (decide (c0 = c)) as [->|Hne].
        -- rewrite lookup_insert_eq in Hd. injection Hd as <-.
           left. exists 0. split; [done | lia].
        -- rewrite lookup_insert_ne in Hd by done. right. split; [|done].
           by intros [?|?]%elem_of_cons.
    + intros [(k & Hk & ->)|[Hn Hd]].
      * destruct k as [|k]; simpl in Hk.
        -- injection Hk as ->. right. split; [done|].
           rewrite lookup_insert_eq. f_equal. lia.
        -- left. exists k. split; [done | lia].
      * right. apply not_elem_of_cons in Hn as [Hne Hn]. split; [done|].
        by rewrite lookup_insert_ne.
Qed.

Lemma NoDup_classes (label_table : LabelTable) :
  NoDup (drop_none (unique_classes label_table)).
Proof. apply NoDup_drop_none, NoDup_unique_from. Qed.

Lemma classes_to_index_lookup (label_table : LabelTable) (c : string) (i : nat) :
  build_classes_to_index label_table !! c = Some i ↔
  drop_none (unique_classes label_table) !! i = Some c.
Proof.
  unfold build_classes_to_index, dict_of_enumerated, enumerate.
  rewrite dict_of_enumerated_from by apply NoDup_classes. split.
  - intros [(k & Hk & ->)|[_ Hd]]; [done | by rewrite lookup_empty in Hd].
  - intros Hi. left. by exists i.
Qed.

Lemma elem_of_classes (label_table : LabelTable) (c : string) :
  c ∈ drop_none (unique_classes label_table) ↔
  Some c ∈ map crop_type label_table.
Proof.
  rewrite elem_of_drop_none. unfold unique_classes, unique.
  rewrite elem_of_unique_from. split; [by intros [? _]|].
  intros Hin. split; [done | apply not_elem_of_nil].
Qed.


(** ** Growing the label table *)

Section UniqueMore.
Context {A : Type} `{EqDecision A}.

(** Only membership in [seen] matters. *)
Lemma unique_from_seen_equiv (seen1 seen2 l : list A) :
  (∀ v, v ∈ seen1 ↔ v ∈ seen2) → unique_from seen1 l = unique_from seen2 l.
Proof.
  revert seen1 seen2. induction l as [|w l IH]; intros seen1 seen2 Heq; simpl; [done|].
  destruct (decide (w ∈ seen1)) as [H1|H1], (decide (w ∈ seen2)) as [H2|H2].
  - by apply IH.
  - exfalso. by apply H2, Heq.
  - exfalso. by apply H1, Heq.
  - f_equal. apply IH. intros v. rewrite !elem_of_cons. by rewrite Heq.
Qed.

Lemma unique_from_app (seen l1 l2 : list A) :
  unique_from seen (l1 ++ l2)
  = unique_from seen l1 ++ unique_from (l1 ++ seen) l2.
Proof.
  revert seen. induction l1 as [|w l1 IH]; intros seen; simpl; [done|].
  destruct (decide (w ∈ seen)) as [Hw|Hw].
  - rewrite IH. f_equal. apply unique_from_seen_equiv.
    intros v. simpl. rewrite elem_of_cons, !elem_of_app.
    split; [auto | intros [->|?]; auto].
  - simpl. f_equal. rewrite IH. f_equal. apply unique_from_seen_equiv.
    intros v. simpl. rewrite !elem_of_cons, !elem_of_app, !elem_of_cons. tauto.
Qed.

End UniqueMore.

(** Dropping the null entries commutes with taking the distinct values. *)
Lemma drop_none_unique_from {A} `{EqDecision A} (seen l : list (option A)) :
  drop_none (unique_from seen l) = unique_from (drop_none seen) (drop_none l).
Proof.
  revert seen. induction l as [|o l IH]; intros seen; simpl; [done|].
  destruct o as [v|].
  - change (drop_none (Some v :: l)) with (v :: drop_none l). simpl.
    destruct (decide (Some v ∈ seen)) as [Hs|Hs], (decide (v ∈ drop_none seen)) as [Hd|Hd].
    + apply IH.
    + exfalso. by apply Hd, elem_of_drop_none.
    + exfalso. by apply Hs, elem_of_drop_none.
    + change (drop_none (Some v :: ?t)) with (v :: drop_none t). f_equal.
      apply (IH (Some v :: seen)).
  - change (drop_none (None :: l)) with (drop_none l).
    destruct (decide (None ∈ seen)); [apply IH|].
    change (drop_none (None :: ?t)) with (drop_none t). apply (IH (None :: seen)).
Qed.

Lemma drop_none_crop_types_filter (label_table : LabelTable) :
  drop_none (map crop_type (List.filter has_crop_type label_table))
  = drop_none (map crop_type label_table).
Proof.
  induction label_table as [|row tbl IH]; [done|]. simpl.
  unfold has_crop_type at 1. destruct (crop_type row) as [c|] eqn:Hc; simpl.
  - rewrite Hc. change (drop_none (Some c :: ?t)) with (c :: drop_none t).
    by rewrite IH.
  - by rewrite IH.
Qed.

Lemma classes_app (l1 l2 : LabelTable) :
  ∃ new_classes,
    drop_none (unique_classes (l1 ++ l2))
    = drop_none (unique_classes l1) ++ new_classes.
Proof.
  unfold unique_classes, unique. rewrite map_app, unique_from_app.
  unfold drop_none. rewrite omap_app. eauto.
Qed.

Lemma classes_to_index_app_stable (l1 l2 : LabelTable) (c : string) (i : nat) :
  build_classes_to_index l1 !! c = Some i →
  build_classes_to_index (l1 ++ l2) !! c = Some i.
Proof.
  rewrite !classes_to_index_lookup.
  destruct (classes_app l1 l2) as [new_classes ->].
  apply lookup_app_l_Some.
Qed.

(** * Nearest-cell lookup *)

Lemma Qltb_lt (a b : Q) : Qltb a b = true ↔ (a < b)%Q.
Proof.
  unfold Qltb. rewrite negb_true_iff. split.
  - intros Hb. apply Qnot_le_lt. intros Hle.
    apply Qle_bool_iff in Hle. congruence.
  - intros Hlt. destruct (Qle_bool b a) eqn:Hb; [|done].
    apply Qle_bool_iff in Hb. exfalso. by apply (Qlt_not_le a b).
Qed.

Lemma Qltb_ge (a b : Q) : Qltb a b = false ↔ (b <= a)%Q.
Proof.
  unfold Qltb. rewrite negb_false_iff. apply Qle_bool_iff.
Qed.

(** The scan keeps the first minimum of what it has seen: [best] indexes
    an entry of the prefix that is no larger than any entry of the prefix
    and strictly smaller than every entry before it. *)
Lemma argmin_from_first_min (l pre : list Q) (best : nat) (best_val : Q) :
  pre !! best = Some best_val →
  (∀ j w, pre !! j = Some w → (best_val <= w)%Q) →
  (∀ j w, j < best → pre !! j = Some w → (best_val < w)%Q) →
  let r := argmin_from best best_val (length pre) l in
  ∃ rv, (pre ++ l) !! r = Some rv
        ∧ (∀ j w, (pre ++ l) !! j = Some w → (rv <= w)%Q)
        ∧ (∀ j w, j < r → (pre ++ l) !! j = Some w → (rv < w)%Q).
Proof.
  revert pre best best_val.
  induction l as [|d l IH]; intros pre best best_val Hbest Hmin Hfirst; simpl.
  - rewrite app_nil_r. by exists best_val.
  - assert (pre ++ d :: l = (pre ++ [d]) ++ l) as -> by by rewrite <- app_assoc.
    assert (S (length pre) = length (pre ++ [d])) as ->
      by (rewrite length_app; simpl; lia).
    destruct (Qltb d best_val) eqn:Hlt.
    + apply Qltb_lt in Hlt. apply IH.
      * rewrite lookup_app_r by lia. by rewrite Nat.sub_diag.
      * intros j w Hj. apply lookup_app_Some in Hj as [Hj|[_ Hj]].
        -- apply Qlt_le_weak. eapply Qlt_le_trans; [exact Hlt | eauto].
        -- apply list_lookup_singleton_Some in Hj as [_ <-]. apply Qle_refl.
      * intros j w Hjlt Hj. rewrite lookup_app_l in Hj by done.
        eapply Qlt_le_trans; [exact Hlt | eauto].
    + apply Qltb_ge in Hlt. apply IH.
      * apply lookup_app_l_Some. done.
      * intros j w Hj. apply lookup_app_Some in Hj as [Hj|[_ Hj]]; [eauto|].
        by apply list_lookup_singleton_Some in Hj as [_ <-].
      * intros j w Hjlt Hj. apply lookup_lt_Some in Hbest.
        rewrite lookup_app_l in Hj by lia. eauto.
Qed.

Lemma argmin_first_min (d : Q) (l : list Q) :
  ∃ r rv, argmin (d :: l) = Returned r
          ∧ (d :: l) !! r = Some rv
          ∧ (∀ j w, (d :: l) !! j = Some w → (rv <= w)%Q)
          ∧ (∀ j w, j < r → (d :: l) !! j = Some w → (rv < w)%Q).
Proof.
  destruct (argmin_from_first_min l [d] 0 d) as (rv & Hr & Hmin & Hfirst).
  - done.
  - intros j w Hj. apply list_lookup_singleton_Some in Hj as [_ <-]. apply Qle_refl.
  - intros j w Hj. lia.
  - simpl in *. eauto 10.
Qed.

Lemma find_nearest_first_min (array : list Q) (value : Q) :
  array ≠ [] →
  ∃ closest idx,
    find_nearest array value = Returned (closest, idx)
    ∧ array !! idx = Some closest
    ∧ (∀ j w, array !! j = Some w →
              (Qabs (closest - value) <= Qabs (w - value))%Q)
    ∧ (∀ j w, j < idx → array !! j = Some w →
              (Qabs (closest - value) < Qabs (w - value))%Q).
Proof.
  intros Hne. destruct array as [|a array]; [done|].
  unfold find_nearest.
  destruct (argmin_first_min (Qabs (a - value))
              (map (fun a => Qabs (a - value)) array))
    as (r & rv & Hargmin & Hr & Hmin & Hfirst).
  change (Qabs (a - value) :: map (fun a => Qabs (a - value)) array)
    with ((fun a => Qabs (a - value)) <$> (a :: array)) in *.
  change (argmin (map (fun a => Qabs (a - value)) (a :: array)) = Returned r)
    in Hargmin.
  rewrite Hargmin.
  rewrite list_lookup_fmap in Hr.
  destruct ((a :: array) !! r) as [closest|] eqn:Hc; [|done].
  simpl in Hr. injection Hr as <-.
  exists closest, r. split; [done|]. split; [done|]. split.
  - intros j w Hj. apply (Hmin j). by rewrite list_lookup_fmap, Hj.
  - intros j w Hlt Hj. apply (Hfirst j); [done|]. by rewrite list_lookup_fmap, Hj.
Qed.

(** C5: nearest-cell lookup returns the coordinate value minimizing the
    absolute difference to the target together with its integer index, ties
    broken by first occurrence; for the vector 10.0, 10.5, 11.0 and target
    10.3 it returns (10.5, 1). *)
Theorem find_nearest_minimizes :
  (∀ (array : list Q) (value : Q),
     array ≠ [] →
     ∃ closest idx,
       find_nearest array value = Returned (closest, idx)
       ∧ array !! idx = Some closest
       ∧ (∀ j w, array !! j = Some w →
                 (Qabs (closest - value) <= Qabs (w - value))%Q)
       ∧ (∀ j w, j < idx → array !! j = Some w →
                 (Qabs (closest - value) < Qabs (w - value))%Q))
  ∧ find_nearest [10#1; 21#2; 11#1] (103#10) = Returned (21#2, 1).
Proof.
  split; [apply find_nearest_first_min | by vm_compute].
Qed.

Lemma find_nearest_minimizes_witness :
  [10#1; 21#2; 11#1] ≠ []
  ∧ ∃ closest idx,
      find_nearest [10#1; 21#2; 11#1] (103#10) = Returned (closest, idx)
      ∧ [10#1; 21#2; 11#1] !! idx = Some closest
      ∧ (∀ j w, [10#1; 21#2; 11#1] !! j = Some w →
                (Qabs (closest - (103#10)) <= Qabs (w - (103#10)))%Q)
      ∧ (∀ j w, j < idx → [10#1; 21#2; 11#1] !! j = Some w →
                (Qabs (closest - (103#10)) < Qabs (w - (103#10)))%Q).
Proof.
  split; [discriminate|].
  apply (proj1 find_nearest_minimizes [10#1; 21#2; 11#1] (103#10)).
  discriminate.
Defined.

(** * NaN capping *)

Lemma nan_to_num_lookup (array : ndarray) (nan : float) (i : nat) (v : float) :
  array !! i = Some v →
  nan_to_num array nan !! i = Some (if isnan v then nan else v).
Proof.
  intros Hi.
  change (nan_to_num array nan)
    with ((fun v => if isnan v then nan else v) <$> array).
  by rewrite list_lookup_fmap, Hi.
Qed.

Lemma length_nan_to_num (array : ndarray) (nan : float) :
  length (nan_to_num array nan) = length array.
Proof. unfold nan_to_num. apply length_map. Qed.

Lemma maxed_nan_to_num_None (array : ndarray) (nan : float)
    (max_ratio : option float) :
  maxed_nan_to_num array nan max_ratio = None ↔
  ∃ r, max_ratio = Some (Num r) ∧ (r < nan_ratio array)%Q.
Proof.
  unfold maxed_nan_to_num, exceeds. split.
  - destruct max_ratio as [[|r]|]; try discriminate.
    destruct (Qltb r (nan_ratio array)) eqn:Hlt; [|discriminate].
    intros _. exists r. split; [done|]. by apply Qltb_lt.
  - intros (r & -> & Hlt). apply Qltb_lt in Hlt. by rewrite Hlt.
Qed.

Lemma maxed_nan_to_num_Some (array : ndarray) (nan : float)
    (max_ratio : option float) (out : ndarray) :
  maxed_nan_to_num array nan max_ratio = Some out → out = nan_to_num array nan.
Proof.
  unfold maxed_nan_to_num.
  destruct max_ratio as [r|]; [destruct (exceeds _ _)|]; congruence.
Qed.

(** C3: [maxed_nan_to_num] replaces every NaN entry with the fill value,
    except that when a ratio cap is given and the fraction of NaN entries
    exceeds it the result is the absent value; on the array 1, NaN, 3 it
    rejects with cap 0.3 and returns 1, 0, 3 with fill 0 and cap 0.5. *)
Theorem maxed_nan_to_num_gate :
  (∀ (array : ndarray) (nan : float) (max_ratio : option float),
     (maxed_nan_to_num array nan max_ratio = None ↔
      ∃ r, max_ratio = Some (Num r) ∧ (r < nan_ratio array)%Q)
     ∧ (∀ out, maxed_nan_to_num array nan max_ratio = Some out →
               length out = length array
               ∧ ∀ i v, array !! i = Some v →
                        out !! i = Some (if isnan v then nan else v)))
  ∧ (nan_ratio [Num 1; NaN; Num 3] == 1 # 3)%Q
  ∧ maxed_nan_to_num [Num 1; NaN; Num 3] (Num 0) (Some (Num (3 # 10))) = None
  ∧ maxed_nan_to_num [Num 1; NaN; Num 3] (Num 0) (Some (Num (1 # 2)))
    = Some [Num 1; Num 0; Num 3].
Proof.
  split; [|by vm_compute].
  intros array nan max_ratio. split; [apply maxed_nan_to_num_None|].
  intros out ->%maxed_nan_to_num_Some.
  split; [apply length_nan_to_num|].
  intros i v. apply nan_to_num_lookup.
Qed.

Lemma nan_to_num_no_nan (array : ndarray) (nan : float) :
  count_nan array = 0 → nan_to_num array nan = array.
Proof.
  unfold nan_to_num, count_nan.
  induction array as [|v array IH]; [done|]. simpl.
  destruct (isnan v); simpl; [discriminate|].
  intros Hcount. f_equal. by apply IH.
Qed.

Lemma exceeds_no_nan (array : ndarray) (max_ratio : float) :
  count_nan array = 0 → exceeds (nan_ratio array) max_ratio = exceeds 0 max_ratio.
Proof.
  intros Hcount. unfold exceeds. destruct max_ratio as [|r]; [done|].
  assert (nan_ratio array == 0)%Q as Hzero.
  { unfold nan_ratio. rewrite Hcount. simpl. unfold Qdiv. apply Qmult_0_l. }
  destruct (Qltb r 0) eqn:Hr.
  - apply Qltb_lt. rewrite Hzero. by apply Qltb_lt.
  - apply Qltb_ge. rewrite Hzero. by apply Qltb_ge.
Qed.

(** * The tile's extent *)

Lemma foldl_Qmin_lower (l : list Q) (v x : Q) :
  x ∈ v :: l → (foldl Qmin v l <= x)%Q.
Proof.
  revert v x. induction l as [|w l IH]; intros v x Hin; simpl.
  - apply list_elem_of_singleton in Hin as ->. apply Qle_refl.
  - apply elem_of_cons in Hin as [->|Hin].
    + eapply Qle_trans; [apply IH; by left | apply Q.le_min_l].
    + apply elem_of_cons in Hin as [->|Hin].
      * eapply Qle_trans; [apply IH; by left | apply Q.le_min_r].
      * apply IH. by right.
Qed.

Lemma foldl_Qmax_upper (l : list Q) (v x : Q) :
  x ∈ v :: l → (x <= foldl Qmax v l)%Q.
Proof.
  revert v x. induction l as [|w l IH]; intros v x Hin; simpl.
  - apply list_elem_of_singleton in Hin as ->. apply Qle_refl.
  - apply elem_of_cons in Hin as [->|Hin].
    + eapply Qle_trans; [apply Q.le_max_l | apply IH; by left].
    + apply elem_of_cons in Hin as [->|Hin].
      * eapply Qle_trans; [apply Q.le_max_r | apply IH; by left].
      * apply IH. by right.
Qed.

Lemma in_extent_inclusive (min_lon max_lon min_lat max_lat : Q) (row : LabelRow) :
  in_extent min_lon max_lon min_lat max_lat row = true ↔
  (min_lon <= lon row)%Q ∧ (lon row <= max_lon)%Q
  ∧ (min_lat <= lat row)%Q ∧ (lat row <= max_lat)%Q.
Proof.
  unfold in_extent. rewrite !andb_true_iff, !Qle_bool_iff. tauto.
Qed.

Lemma count_nan_nan_to_num (array : ndarray) (nan : float) :
  isnan nan = false → count_nan (nan_to_num array nan) = 0.
Proof.
  intros Hfill. unfold count_nan, nan_to_num.
  induction array as [|v array IH]; [done|]. simpl.
  destruct (isnan v) eqn:Hv; simpl; [by rewrite Hfill | by rewrite Hv].
Qed.

Lemma filter_first_split {A} (f : A → bool) (l : list A) (x : A) (rest : list A) :
  List.filter f l = x :: rest →
  ∃ before after,
    l = before ++ x :: after
    ∧ (∀ y, y ∈ before → f y = false)
    ∧ f x = true
    ∧ rest = List.filter f after.
Proof.
  induction l as [|y l IH]; simpl; [done|].
  destruct (f y) eqn:Hy.
  - intros [= -> <-]. exists [], l. split; [done|]. split; [|done].
    intros z Hz. inversion Hz.
  - intros Hfilter. destruct (IH Hfilter) as (before & after & -> & Hout & Hx & ->).
    exists (y :: before), after. split; [done|]. split; [|done].
    intros z [->|Hz]%elem_of_cons; auto.
Qed.

(** * One call of [process_single_file] *)

Section ProcessSingleFile.
Context `{BaseEngineer}.
Variables (path_to_file : Path) (nan_fill max_nan_ratio : float).
Variables (add_ndvi add_ndwi calculate_normalizing_dict : bool).
Variables (start_date : datetime) (days_per_timestep : Z).
Variables (is_test return_autoencoder_instances : bool).
Variable autoencoder_instances_per_label : Z.

Local Abbreviation call :=
  (process_single_file path_to_file nan_fill max_nan_ratio add_ndvi add_ndwi
     calculate_normalizing_dict start_date days_per_timestep is_test
     return_autoencoder_instances autoencoder_instances_per_label).

Local Abbreviation sampled da labelled_array :=
  (autoencoder_result return_autoencoder_instances da labelled_array add_ndvi
     add_ndwi nan_fill is_test calculate_normalizing_dict
     autoencoder_instances_per_label).

Local Abbreviation loaded da :=
  (load_tif path_to_file days_per_timestep start_date = Returned da).

Ltac unfold_call :=
  unfold process_single_file, autoencoder_result, overlapping_rows,
    bounding_box, with_indices, with_statistics, with_surrounding_statistics,
    update_labelled_stats,
    update_surrounding_stats, update_normalizing_values, dict_get, vec_min,
    vec_max, get_self, lift, mbind, M_bind, mret, M_ret in *.

Lemma call_load_error (e : exn) (self : PVKenyaEngineer) :
  load_tif path_to_file days_per_timestep start_date = Raised e →
  call self = (Raised e, self).
Proof. intros Hload. unfold_call. by rewrite Hload. Qed.

Lemma call_no_extent (da : DataArray) (self : PVKenyaEngineer) :
  loaded da → bounding_box da = None →
  call self = (Raised ValueError, self).
Proof.
  intros Hload Hbox. unfold_call. rewrite Hload.
  destruct (da_x da); [done|]. destruct (da_y da); [done | discriminate].
Qed.

Lemma call_no_overlap (da : DataArray) (self : PVKenyaEngineer) :
  loaded da → is_Some (bounding_box da) →
  overlapping_rows da (labels self) = [] →
  call self = (Returned (None, sampled da None), self).
Proof.
  intros Hload [box Hbox] Hov. unfold_call. rewrite Hload.
  destruct (da_x da); [done|]. destruct (da_y da); [done|].
  simpl in *. rewrite Hov. by destruct return_autoencoder_instances.
Qed.

Lemma call_null_crop (da : DataArray) (self : PVKenyaEngineer)
    (first_row : LabelRow) (rest : list LabelRow) :
  loaded da →
  overlapping_rows da (labels self) = first_row :: rest →
  crop_type first_row = None →
  call self = (Returned (None, sampled da None), self).
Proof.
  intros Hload Hov Hcrop. unfold_call. rewrite Hload.
  destruct (da_x da); [done|]. destruct (da_y da); [done|].
  simpl in *. rewrite Hov, Hcrop. by destruct return_autoencoder_instances.
Qed.

Lemma call_key_error (da : DataArray) (self : PVKenyaEngineer)
    (first_row : LabelRow) (rest : list LabelRow) (crop : string) :
  loaded da →
  overlapping_rows da (labels self) = first_row :: rest →
  crop_type first_row = Some crop →
  classes_to_index self !! crop = None →
  call self = (Raised (KeyError crop), self).
Proof.
  intros Hload Hov Hcrop Hidx. unfold_call. rewrite Hload.
  destruct (da_x da); [done|]. destruct (da_y da); [done|].
  simpl in *. by rewrite Hov, Hcrop, Hidx.
Qed.

Lemma call_labelled (da : DataArray) (self : PVKenyaEngineer)
    (first_row : LabelRow) (rest : list LabelRow) (crop : string) (idx : nat) :
  loaded da →
  overlapping_rows da (labels self) = first_row :: rest →
  crop_type first_row = Some crop →
  classes_to_index self !! crop = Some idx →
  ∃ closest_lon lon_idx closest_lat lat_idx,
    find_nearest (da_x da) (lon first_row) = Returned (closest_lon, lon_idx)
    ∧ find_nearest (da_y da) (lat first_row) = Returned (closest_lat, lat_idx)
    ∧ let labelled_np :=
        with_indices add_ndvi add_ndwi (da_sel da closest_lon closest_lat) in
      let surrounding :=
        nan_to_num (with_indices add_ndvi add_ndwi
                      (get_surrounding_pixels da lat_idx lon_idx)) nan_fill in
      call self =
        match maxed_nan_to_num labelled_np nan_fill (Some max_nan_ratio) with
        | None =>
            (Returned (None, sampled da None),
             if negb is_test && calculate_normalizing_dict
             then with_surrounding_statistics surrounding self
             else self)
        | Some array =>
            (Returned
               (Some {| label_lat := lat first_row;
                        label_lon := lon first_row;
                        instance_lat := closest_lat;
                        instance_lon := closest_lon;
                        labelled_array := array;
                        crop_label := crop;
                        crop_int := idx;
                        surrounding_array := Some surrounding |},
                sampled da (Some array)),
             if negb is_test && calculate_normalizing_dict
             then with_statistics array surrounding self
             else self)
        end.
Proof.
  intros Hload Hov Hcrop Hidx.
  destruct (da_x da) as [|x0 xs] eqn:Hx.
  { unfold overlapping_rows, bounding_box in Hov. by rewrite Hx in Hov. }
  destruct (da_y da) as [|y0 ys] eqn:Hy.
  { unfold overlapping_rows, bounding_box in Hov. by rewrite Hx, Hy in Hov. }
  destruct (find_nearest_first_min (x0 :: xs) (lon first_row))
    as (closest_lon & lon_idx & Hlon & _); [done|].
  destruct (find_nearest_first_min (y0 :: ys) (lat first_row))
    as (closest_lat & lat_idx & Hlat & _); [done|].
  exists closest_lon, lon_idx, closest_lat, lat_idx.
  split; [done|]. split; [done|].
  unfold_call. rewrite Hload, Hx, Hy in *. simpl in *.
  rewrite Hov, Hcrop, Hidx, Hlon, Hlat. simpl.
  destruct self as [tbl classes dl ds]; simpl.
  destruct add_ndvi, add_ndwi; simpl;
    (destruct (exceeds _ max_nan_ratio); simpl;
     destruct is_test, calculate_normalizing_dict,
       return_autoencoder_instances; reflexivity).
Qed.

(** Every call falls in one of the six cases. *)
Lemma call_cases (self : PVKenyaEngineer) :
  call_case path_to_file days_per_timestep start_date self.
Proof.
  destruct (load_tif path_to_file days_per_timestep start_date) as [da|e] eqn:Hload;
    [|by eapply case_load_error].
  destruct (bounding_box da) as [box|] eqn:Hbox; [|by eapply case_no_extent].
  destruct (overlapping_rows da (labels self)) as [|first_row rest] eqn:Hov;
    [by eapply case_no_overlap|].
  destruct (crop_type first_row) as [crop|] eqn:Hcrop; [|by eapply case_null_crop].
  destruct (classes_to_index self !! crop) as [idx|] eqn:Hidx.
  - by eapply case_labelled.
  - by eapply case_key_error.
Qed.

(** Where the accumulators certainly keep their state: in test mode, with
    statistics off, with no row inside the tile, or with a first row
    without crop type. *)
Lemma accumulators_untouched_without_fold (self : PVKenyaEngineer) :
  is_test = true ∨ calculate_normalizing_dict = false
    ∨ (∀ da, loaded da →
             overlapping_rows da (labels self) = []
             ∨ ∃ first_row rest,
                 overlapping_rows da (labels self) = first_row :: rest
                 ∧ crop_type first_row = None) →
  normalizing_dict_interim (call self).2 = normalizing_dict_interim self
  ∧ surrounding_normalizing_dict_interim (call self).2
    = surrounding_normalizing_dict_interim self.
Proof.
  intros Hquiet.
  destruct (call_cases self) as
    [e Hload|da Hload Hbox|da Hload Hbox Hov|da row rest Hload Hov Hcrop
    |da row rest crop Hload Hov Hcrop Hidx|da row rest crop idx Hload Hov Hcrop Hidx].
  - by rewrite (call_load_error _ _ Hload).
  - by rewrite (call_no_extent _ _ Hload Hbox).
  - by rewrite (call_no_overlap _ _ Hload Hbox Hov).
  - by rewrite (call_null_crop _ _ _ _ Hload Hov Hcrop).
  - by rewrite (call_key_error _ _ _ _ _ Hload Hov Hcrop Hidx).
  - destruct (call_labelled _ _ _ _ _ _ Hload Hov Hcrop Hidx)
      as (closest_lon & lon_idx & closest_lat & lat_idx & _ & _ & Hcall).
    cbv zeta in Hcall. rewrite Hcall. clear Hcall.
    assert (negb is_test && calculate_normalizing_dict = false) as ->.
    { destruct Hquiet as [->|[->|Hnone]]; [done | apply andb_false_r |].
      exfalso. destruct (Hnone da Hload) as [Hnil|(row' & rest' & Hov' & Hnull)];
        congruence. }
    by destruct (maxed_nan_to_num _ nan_fill (Some max_nan_ratio)).
Qed.


Lemma elem_of_overlapping_rows (da : DataArray) (label_table : LabelTable)
    (row : LabelRow) :
  row ∈ overlapping_rows da label_table ↔
  row ∈ label_table
  ∧ ∃ min_lon max_lon min_lat max_lat,
      bounding_box da = Some (min_lon, max_lon, min_lat, max_lat)
      ∧ (min_lon <= lon row)%Q ∧ (lon row <= max_lon)%Q
      ∧ (min_lat <= lat row)%Q ∧ (lat row <= max_lat)%Q.
Proof.
  unfold overlapping_rows.
  destruct (bounding_box da) as [[[[min_lon max_lon] min_lat] max_lat]|].
  - rewrite list_elem_of_In, filter_In, <- list_elem_of_In, in_extent_inclusive.
    split.
    + intros [Hin Hbox]. split; [done|]. by exists min_lon, max_lon, min_lat, max_lat.
    + intros [Hin (? & ? & ? & ? & [= <- <- <- <-] & Hbox)]. done.
  - split; [intros Hin; inversion Hin|]. by intros [_ (? & ? & ? & ? & ? & _)].
Qed.

Lemma bounding_box_extremes (da : DataArray) (min_lon max_lon min_lat max_lat : Q) :
  bounding_box da = Some (min_lon, max_lon, min_lat, max_lat) →
  (∀ x, x ∈ da_x da → (min_lon <= x)%Q ∧ (x <= max_lon)%Q)
  ∧ (∀ y, y ∈ da_y da → (min_lat <= y)%Q ∧ (y <= max_lat)%Q).
Proof.
  unfold bounding_box.
  destruct (da_x da) as [|x0 xs]; [done|]. destruct (da_y da) as [|y0 ys]; [done|].
  intros [= <- <- <- <-].
  split; intros v Hin; split;
    (by apply foldl_Qmin_lower) || (by apply foldl_Qmax_upper).
Qed.

Lemma session_lookup (label_table : LabelTable) (self : PVKenyaEngineer)
    (da : DataArray) (row : LabelRow) (crop : string) :
  session_of label_table self →
  row ∈ overlapping_rows da label_table →
  crop_type row = Some crop →
  ∃ idx, classes_to_index self !! crop = Some idx
         ∧ drop_none (unique_classes label_table) !! idx = Some crop.
Proof.
  intros [_ Hclasses] Hin Hcrop.
  apply elem_of_overlapping_rows in Hin as [Hin _].
  assert (crop ∈ drop_none (unique_classes label_table)) as Hc.
  { apply elem_of_classes, list_elem_of_In, in_map_iff.
    exists row. split; [done | by apply list_elem_of_In]. }
  apply list_elem_of_lookup in Hc as [idx Hidx]. exists idx. split; [|done].
  rewrite Hclasses. by apply classes_to_index_lookup.
Qed.

(** C10: in a session whose class index was built from the label table,
    the class-index lookup during extraction is total: the first overlapping
    row's non-null crop type is a key of [classes_to_index], so the call
    never fails with a missing-key error. *)
Theorem class_lookup_total (label_table : LabelTable) (self : PVKenyaEngineer)
    (da : DataArray) :
  session_of label_table self →
  loaded da →
  (∀ first_row rest crop,
     overlapping_rows da label_table = first_row :: rest →
     crop_type first_row = Some crop →
     is_Some (classes_to_index self !! crop))
  ∧ ∀ key, (call self).1 ≠ Raised (KeyError key).
Proof.
  intros Hsession Hda.
  assert (∀ first_row rest crop,
            overlapping_rows da label_table = first_row :: rest →
            crop_type first_row = Some crop →
            is_Some (classes_to_index self !! crop)) as Htotal.
  { intros row rest crop Hov Hcrop.
    destruct (session_lookup label_table self da row crop) as (idx & Hidx & _);
      [done | rewrite Hov; by left | done | by exists idx]. }
  split; [done|]. intros key.
  destruct (call_cases self) as
    [e Hload|da' Hload Hbox|da' Hload Hbox Hov|da' row rest Hload Hov Hcrop
    |da' row rest crop Hload Hov Hcrop Hidx|da' row rest crop idx Hload Hov Hcrop Hidx].
  - congruence.
  - by rewrite (call_no_extent _ _ Hload Hbox).
  - by rewrite (call_no_overlap _ _ Hload Hbox Hov).
  - by rewrite (call_null_crop _ _ _ _ Hload Hov Hcrop).
  - assert (da' = da) as -> by congruence.
    destruct Hsession as [Hlabels ?]. rewrite Hlabels in Hov.
    destruct (Htotal _ _ _ Hov Hcrop) as [idx Hidx']. congruence.
  - destruct (call_labelled _ _ _ _ _ _ Hload Hov Hcrop Hidx)
      as (closest_lon & lon_idx & closest_lat & lat_idx & _ & _ & Hcall).
    cbv zeta in Hcall. rewrite Hcall.
    destruct (maxed_nan_to_num _ nan_fill (Some max_nan_ratio)); [done|].
    by destruct (negb is_test && calculate_normalizing_dict).
Qed.

(** What a call that produced an instance went through. *)
Lemma produced_instance_inv (self self' : PVKenyaEngineer)
    (instance : PVKenyaDataInstance) (extra : option ndarray) :
  call self = (Returned (Some instance, extra), self') →
  ∃ da first_row rest lon_idx lat_idx,
    loaded da
    ∧ overlapping_rows da (labels self) = first_row :: rest
    ∧ crop_type first_row = Some (crop_label instance)
    ∧ classes_to_index self !! crop_label instance = Some (crop_int instance)
    ∧ label_lat instance = lat first_row
    ∧ label_lon instance = lon first_row
    ∧ find_nearest (da_x da) (lon first_row)
      = Returned (instance_lon instance, lon_idx)
    ∧ find_nearest (da_y da) (lat first_row)
      = Returned (instance_lat instance, lat_idx)
    ∧ maxed_nan_to_num
        (with_indices add_ndvi add_ndwi
           (da_sel da (instance_lon instance) (instance_lat instance)))
        nan_fill (Some max_nan_ratio)
      = Some (labelled_array instance)
    ∧ surrounding_array instance
      = Some (nan_to_num
                (with_indices add_ndvi add_ndwi
                   (get_surrounding_pixels da lat_idx lon_idx)) nan_fill)
    ∧ extra = sampled da (Some (labelled_array instance)).
Proof.
  intros Hret.
  destruct (call_cases self) as
    [e Hload|da Hload Hbox|da Hload Hbox Hov|da row rest Hload Hov Hcrop
    |da row rest crop Hload Hov Hcrop Hidx|da row rest crop idx Hload Hov Hcrop Hidx].
  - by rewrite (call_load_error _ _ Hload) in Hret.
  - by rewrite (call_no_extent _ _ Hload Hbox) in Hret.
  - by rewrite (call_no_overlap _ _ Hload Hbox Hov) in Hret.
  - by rewrite (call_null_crop _ _ _ _ Hload Hov Hcrop) in Hret.
  - by rewrite (call_key_error _ _ _ _ _ Hload Hov Hcrop Hidx) in Hret.
  - destruct (call_labelled _ _ _ _ _ _ Hload Hov Hcrop Hidx)
      as (closest_lon & lon_idx & closest_lat & lat_idx & Hlon & Hlat & Hcall).
    cbv zeta in Hcall. rewrite Hcall in Hret. clear Hcall.
    destruct (maxed_nan_to_num _ nan_fill (Some max_nan_ratio)) as [array|] eqn:Hgate.
    + injection Hret as <- <- <-. simpl.
      exists da, row, rest, lon_idx, lat_idx. done.
    + by destruct (negb is_test && calculate_normalizing_dict).
Qed.

(** C6: when several rows fall inside the tile's bounding box only the
    first one, in label-table order, is used: the instance's label
    coordinates and crop label are those of that row, and the result is the
    same whatever the other overlapping rows are. *)
Theorem first_overlapping_row_only (self self' : PVKenyaEngineer) (da : DataArray)
    (first_row : LabelRow) (rest : list LabelRow)
    (instance : PVKenyaDataInstance) (extra : option ndarray) :
  loaded da →
  overlapping_rows da (labels self) = first_row :: rest →
  call self = (Returned (Some instance, extra), self') →
  label_lat instance = lat first_row
  ∧ label_lon instance = lon first_row
  ∧ crop_type first_row = Some (crop_label instance)
  ∧ ∀ other rest',
      overlapping_rows da (labels other) = first_row :: rest' →
      classes_to_index other = classes_to_index self →
      (call other).1 = Returned (Some instance, extra).
Proof.
  intros Hload Hov Hret.
  destruct (produced_instance_inv _ _ _ _ Hret)
    as (da' & row & rest0 & lon_idx & lat_idx & Hload' & Hov' & Hcrop & Hidx
        & Hlat & Hlon & Hnlon & Hnlat & Hgate & Hsur & Hextra).
  assert (da' = da) as -> by congruence.
  assert (row = first_row) as -> by congruence.
  split; [done|]. split; [done|]. split; [done|].
  intros other rest' Hov2 Hclasses.
  rewrite <- Hclasses in Hidx.
  destruct (call_labelled _ _ _ _ _ _ Hload Hov2 Hcrop Hidx)
    as (closest_lon & lon_idx' & closest_lat & lat_idx' & Hlon' & Hlat' & Hcall).
  cbv zeta in Hcall. rewrite Hcall. clear Hcall.
  assert (closest_lon = instance_lon instance ∧ lon_idx' = lon_idx) as [-> ->]
    by (split; congruence).
  assert (closest_lat = instance_lat instance ∧ lat_idx' = lat_idx) as [-> ->]
    by (split; congruence).
  rewrite Hgate. simpl. rewrite Hextra, <- Hsur, <- Hlat, <- Hlon.
  by destruct instance.
Qed.

(** C7: the surrounding array is always NaN-filled and never rejected by
    the quality gate: [maxed_nan_to_num] is applied to it with no ratio cap,
    whatever [max_nan_ratio] is passed for the labelled array. *)
Theorem surrounding_always_filled (self self' : PVKenyaEngineer)
    (instance : PVKenyaDataInstance) (extra : option ndarray) :
  call self = (Returned (Some instance, extra), self') →
  ∃ da lon_idx lat_idx,
    loaded da
    ∧ find_nearest (da_x da) (label_lon instance)
      = Returned (instance_lon instance, lon_idx)
    ∧ find_nearest (da_y da) (label_lat instance)
      = Returned (instance_lat instance, lat_idx)
    ∧ let surrounding_np :=
        with_indices add_ndvi add_ndwi (get_surrounding_pixels da lat_idx lon_idx) in
      surrounding_array instance = maxed_nan_to_num surrounding_np nan_fill None
      ∧ surrounding_array instance = Some (nan_to_num surrounding_np nan_fill)
      ∧ ∀ i v, surrounding_np !! i = Some v →
               surrounding_array instance ≫= (fun filled => filled !! i)
               = Some (if isnan v then nan_fill else v).
Proof.
  intros Hret.
  destruct (produced_instance_inv _ _ _ _ Hret)
    as (da & row & rest & lon_idx & lat_idx & Hload & Hov & Hcrop & Hidx
        & Hlat & Hlon & Hnlon & Hnlat & Hgate & Hsur & Hextra).
  exists da, lon_idx, lat_idx. rewrite Hlat, Hlon.
  split; [done|]. split; [done|]. split; [done|].
  cbv zeta. split; [done|]. split; [done|].
  intros i v Hi. rewrite Hsur. simpl. by apply nan_to_num_lookup.
Qed.


(** C1, amended: a call on a tile that loads with an extent, in a session
    whose class index was built from the label table, produces a labelled
    instance exactly when the first row (in table order) inside the tile's
    inclusive bounding box exists, has a non-null crop type and its labelled
    array passes the NaN-ratio gate; when no row is inside or that first row
    has a null crop type the labelled result is [None]. *)
Theorem labelled_instance_iff (label_table : LabelTable) (self : PVKenyaEngineer)
    (da : DataArray) :
  session_of label_table self →
  loaded da →
  is_Some (bounding_box da) →
  (produces_instance (call self) ↔
   ∃ first_row rest crop closest_lon lon_idx closest_lat lat_idx,
     overlapping_rows da label_table = first_row :: rest
     ∧ crop_type first_row = Some crop
     ∧ find_nearest (da_x da) (lon first_row) = Returned (closest_lon, lon_idx)
     ∧ find_nearest (da_y da) (lat first_row) = Returned (closest_lat, lat_idx)
     ∧ is_Some (maxed_nan_to_num
                  (with_indices add_ndvi add_ndwi
                     (da_sel da closest_lon closest_lat))
                  nan_fill (Some max_nan_ratio)))
  ∧ (overlapping_rows da label_table = []
     ∨ (∃ first_row rest,
          overlapping_rows da label_table = first_row :: rest
          ∧ crop_type first_row = None) →
     ∃ extra, call self = (Returned (None, extra), self))
  ∧ (∀ row, row ∈ overlapping_rows da label_table ↔
            row ∈ label_table
            ∧ ∃ min_lon max_lon min_lat max_lat,
                bounding_box da = Some (min_lon, max_lon, min_lat, max_lat)
                ∧ (min_lon <= lon row)%Q ∧ (lon row <= max_lon)%Q
                ∧ (min_lat <= lat row)%Q ∧ (lat row <= max_lat)%Q)
  ∧ (∀ min_lon max_lon min_lat max_lat,
       bounding_box da = Some (min_lon, max_lon, min_lat, max_lat) →
       (∀ x, x ∈ da_x da → (min_lon <= x)%Q ∧ (x <= max_lon)%Q)
       ∧ (∀ y, y ∈ da_y da → (min_lat <= y)%Q ∧ (y <= max_lat)%Q)).
Proof.
  intros Hsession Hload Hbox.
  pose proof Hsession as [Hlabels Hclasses].
  split; [|split; [|split]].
  - split.
    + intros (instance & extra & self' & Hret).
      destruct (produced_instance_inv _ _ _ _ Hret)
        as (da' & row & rest & lon_idx & lat_idx & Hload' & Hov & Hcrop & Hidx
            & Hlat & Hlon & Hnlon & Hnlat & Hgate & Hsur & Hextra).
      assert (da' = da) as -> by congruence. rewrite Hlabels in Hov.
      exists row, rest, (crop_label instance), (instance_lon instance), lon_idx,
        (instance_lat instance), lat_idx.
      rewrite Hgate. eauto 10.
    + intros (row & rest & crop & closest_lon & lon_idx & closest_lat & lat_idx
              & Hov & Hcrop & Hnlon & Hnlat & [array Hgate]).
      destruct (session_lookup label_table self da row crop) as (idx & Hidx & _);
        [done | rewrite Hov; by left | done |].
      rewrite <- Hlabels in Hov.
      destruct (call_labelled _ _ _ _ _ _ Hload Hov Hcrop Hidx)
        as (closest_lon' & lon_idx' & closest_lat' & lat_idx' & Hlon' & Hlat' & Hcall).
      assert (closest_lon' = closest_lon) as -> by congruence.
      assert (closest_lat' = closest_lat) as -> by congruence.
      cbv zeta in Hcall. rewrite Hgate in Hcall.
      unfold produces_instance. rewrite Hcall. eauto.
  - rewrite <- Hlabels.
    intros [Hov|(row & rest & Hov & Hcrop)]; eexists.
    + by apply call_no_overlap.
    + by eapply call_null_crop.
  - apply elem_of_overlapping_rows.
  - apply bounding_box_extremes.
Qed.

(** C9, amended: for a tile whose bounding box contains exactly one label
    point, of crop type maize, whose labelled series holds no NaN, with a
    cap that a ratio of zero does not exceed, NDVI on, statistics on and not
    in test mode, the call returns an instance labelled maize whose
    [crop_int] is the position of maize among the distinct non-null crop
    types of the label table in first-seen order (0 when maize comes first),
    with both arrays present, and the sample count of each accumulator goes
    up by exactly 1. *)
Theorem end_to_end_single_maize (label_table : LabelTable)
    (self : PVKenyaEngineer) (da : DataArray) (row : LabelRow) :
  session_of label_table self →
  loaded da →
  overlapping_rows da label_table = [row] →
  crop_type row = Some "maize" →
  (∀ closest_lon lon_idx closest_lat lat_idx,
     find_nearest (da_x da) (lon row) = Returned (closest_lon, lon_idx) →
     find_nearest (da_y da) (lat row) = Returned (closest_lat, lat_idx) →
     count_nan (with_indices add_ndvi add_ndwi
                  (da_sel da closest_lon closest_lat)) = 0) →
  exceeds 0 max_nan_ratio = false →
  add_ndvi = true →
  calculate_normalizing_dict = true →
  is_test = false →
  ∃ instance extra self',
    call self = (Returned (Some instance, extra), self')
    ∧ crop_label instance = "maize"
    ∧ classes_to_index self !! "maize" = Some (crop_int instance)
    ∧ drop_none (unique_classes label_table) !! crop_int instance = Some "maize"
    ∧ (head (drop_none (unique_classes label_table)) = Some "maize" →
       crop_int instance = 0)
    ∧ labelled_array instance
      = with_indices add_ndvi add_ndwi
          (da_sel da (instance_lon instance) (instance_lat instance))
    ∧ is_Some (surrounding_array instance)
    ∧ n (normalizing_dict_interim self')
      = (n (normalizing_dict_interim self) + 1)%Z
    ∧ n (surrounding_normalizing_dict_interim self')
      = (n (surrounding_normalizing_dict_interim self) + 1)%Z.
Proof.
  intros Hsession Hload Hov Hcrop Hclean Hcap Hndvi Hcalc Htest.
  destruct (session_lookup label_table self da row "maize") as (idx & Hidx & Hpos);
    [done | rewrite Hov; by left | done |].
  pose proof Hsession as [Hlabels Hclasses]. rewrite <- Hlabels in Hov.
  destruct (call_labelled _ _ _ _ _ _ Hload Hov Hcrop Hidx)
    as (closest_lon & lon_idx & closest_lat & lat_idx & Hlon & Hlat & Hcall).
  cbv zeta in Hcall. specialize (Hclean _ _ _ _ Hlon Hlat).
  assert (maxed_nan_to_num
            (with_indices add_ndvi add_ndwi (da_sel da closest_lon closest_lat))
            nan_fill (Some max_nan_ratio)
          = Some (with_indices add_ndvi add_ndwi
                    (da_sel da closest_lon closest_lat))) as Hgate.
  { unfold maxed_nan_to_num. rewrite (exceeds_no_nan _ _ Hclean), Hcap.
    f_equal. by apply nan_to_num_no_nan. }
  rewrite Hgate in Hcall. rewrite Hcalc, Htest in Hcall |- *. simpl in Hcall.
  eexists _, _, _. split; [exact Hcall|]. simpl.
  split; [done|]. split; [done|]. split; [done|]. split.
  - intros Hhead. destruct (drop_none (unique_classes label_table)) as [|c cs] eqn:Hcs;
      [done|]. simpl in Hhead. injection Hhead as ->.
    destruct idx as [|idx]; [done|]. exfalso.
    pose proof (NoDup_classes label_table) as Hnd. rewrite Hcs in Hnd.
    apply NoDup_cons in Hnd as [Hnin _]. apply Hnin.
    simpl in Hpos. by eapply list_elem_of_lookup_2.
  - split; [done|]. split; [by eexists|]. done.
Qed.

(** ** Further properties of one call *)

Lemma bounding_box_None (da : DataArray) :
  bounding_box da = None ↔ da_x da = [] ∨ da_y da = [].
Proof.
  unfold bounding_box. destruct (da_x da), (da_y da); split; try done; auto.
  by intros [?|?].
Qed.

(** Where a call that produced an instance leaves [self]. *)
Lemma produced_instance_state (self self' : PVKenyaEngineer)
    (instance : PVKenyaDataInstance) (extra : option ndarray) :
  call self = (Returned (Some instance, extra), self') →
  ∃ surrounding,
    surrounding_array instance = Some surrounding
    ∧ self' = if negb is_test && calculate_normalizing_dict
              then with_statistics (labelled_array instance) surrounding self
              else self.
Proof.
  intros Hret.
  destruct (call_cases self) as
    [e Hload|da Hload Hbox|da Hload Hbox Hov|da row rest Hload Hov Hcrop
    |da row rest crop Hload Hov Hcrop Hidx|da row rest crop idx Hload Hov Hcrop Hidx].
  - by rewrite (call_load_error _ _ Hload) in Hret.
  - by rewrite (call_no_extent _ _ Hload Hbox) in Hret.
  - by rewrite (call_no_overlap _ _ Hload Hbox Hov) in Hret.
  - by rewrite (call_null_crop _ _ _ _ Hload Hov Hcrop) in Hret.
  - by rewrite (call_key_error _ _ _ _ _ Hload Hov Hcrop Hidx) in Hret.
  - destruct (call_labelled _ _ _ _ _ _ Hload Hov Hcrop Hidx)
      as (closest_lon & lon_idx & closest_lat & lat_idx & Hlon & Hlat & Hcall).
    cbv zeta in Hcall. rewrite Hcall in Hret. clear Hcall.
    destruct (maxed_nan_to_num _ nan_fill (Some max_nan_ratio)) as [array|].
    + injection Hret as <- <- <-. simpl. by eexists.
    + by destruct (negb is_test && calculate_normalizing_dict).
Qed.

(** X5: a call never assigns to [self.labels] or [self.classes_to_index]:
    whatever its outcome both are as before, so an engineer stays in the
    session its class index was built for. *)
Theorem call_keeps_labels_and_index (self : PVKenyaEngineer) :
  labels (call self).2 = labels self
  ∧ classes_to_index (call self).2 = classes_to_index self
  ∧ ∀ label_table, session_of label_table self →
                   session_of label_table (call self).2.
Proof.
  assert (labels (call self).2 = labels self
          ∧ classes_to_index (call self).2 = classes_to_index self) as [Hl Hc].
  { destruct (call_cases self) as
      [e Hload|da Hload Hbox|da Hload Hbox Hov|da row rest Hload Hov Hcrop
      |da row rest crop Hload Hov Hcrop Hidx|da row rest crop idx Hload Hov Hcrop Hidx].
    - by rewrite (call_load_error _ _ Hload).
    - by rewrite (call_no_extent _ _ Hload Hbox).
    - by rewrite (call_no_overlap _ _ Hload Hbox Hov).
    - by rewrite (call_null_crop _ _ _ _ Hload Hov Hcrop).
    - by rewrite (call_key_error _ _ _ _ _ Hload Hov Hcrop Hidx).
    - destruct (call_labelled _ _ _ _ _ _ Hload Hov Hcrop Hidx)
        as (closest_lon & lon_idx & closest_lat & lat_idx & _ & _ & Hcall).
      cbv zeta in Hcall. rewrite Hcall. clear Hcall.
      destruct (maxed_nan_to_num _ nan_fill (Some max_nan_ratio));
        by destruct (negb is_test && calculate_normalizing_dict). }
  split; [done|]. split; [done|].
  intros label_table [? ?]. split; congruence.
Qed.

(** X6: a call that raises leaves the engineer object as it found it: no
    statistics are folded before the failure. *)
Theorem raised_call_leaves_self (self : PVKenyaEngineer) (e : exn) :
  (call self).1 = Raised e → (call self).2 = self.
Proof.
  destruct (call_cases self) as
    [e' Hload|da Hload Hbox|da Hload Hbox Hov|da row rest Hload Hov Hcrop
    |da row rest crop Hload Hov Hcrop Hidx|da row rest crop idx Hload Hov Hcrop Hidx].
  - by rewrite (call_load_error _ _ Hload).
  - by rewrite (call_no_extent _ _ Hload Hbox).
  - by rewrite (call_no_overlap _ _ Hload Hbox Hov).
  - by rewrite (call_null_crop _ _ _ _ Hload Hov Hcrop).
  - by rewrite (call_key_error _ _ _ _ _ Hload Hov Hcrop Hidx).
  - destruct (call_labelled _ _ _ _ _ _ Hload Hov Hcrop Hidx)
      as (closest_lon & lon_idx & closest_lat & lat_idx & _ & _ & Hcall).
    cbv zeta in Hcall. rewrite Hcall. clear Hcall.
    destruct (maxed_nan_to_num _ nan_fill (Some max_nan_ratio)); [done|].
    by destruct (negb is_test && calculate_normalizing_dict).
Qed.

(** X7: in test mode, or with statistics off, a call on a tile that loads with
    an extent always returns and leaves the engineer object untouched. *)
Theorem quiet_call_returns (label_table : LabelTable) (self : PVKenyaEngineer)
    (da : DataArray) :
  session_of label_table self →
  loaded da →
  is_Some (bounding_box da) →
  is_test = true ∨ calculate_normalizing_dict = false →
  ∃ result extra, call self = (Returned (result, extra), self).
Proof.
  intros Hsession Hda [box Hsome] Hquiet.
  assert (negb is_test && calculate_normalizing_dict = false) as Hoff.
  { destruct Hquiet as [->| ->]; [done | apply andb_false_r]. }
  destruct (call_cases self) as
    [e Hload|da' Hload Hbox|da' Hload Hbox Hov|da' row rest Hload Hov Hcrop
    |da' row rest crop Hload Hov Hcrop Hidx|da' row rest crop idx Hload Hov Hcrop Hidx].
  - congruence.
  - congruence.
  - rewrite (call_no_overlap _ _ Hload Hbox Hov). eauto.
  - rewrite (call_null_crop _ _ _ _ Hload Hov Hcrop). eauto.
  - exfalso. destruct Hsession as [Hlabels Hclasses].
    destruct (session_lookup label_table self da' row crop) as (idx & Hidx' & _);
      [done | rewrite <- Hlabels, Hov; by left | done | congruence].
  - destruct (call_labelled _ _ _ _ _ _ Hload Hov Hcrop Hidx)
      as (closest_lon & lon_idx & closest_lat & lat_idx & _ & _ & Hcall).
    cbv zeta in Hcall. rewrite Hcall, Hoff. clear Hcall.
    destruct (maxed_nan_to_num _ nan_fill (Some max_nan_ratio)); eauto.
Qed.

(** X8: on a tile that loads, a call raises [KeyError] exactly when the first
    overlapping row has a crop type that is not a key of the class index;
    the error names that crop type. *)
Theorem key_error_iff (self : PVKenyaEngineer) (da : DataArray) (key : string) :
  loaded da →
  (call self).1 = Raised (KeyError key) ↔
  ∃ first_row rest,
    overlapping_rows da (labels self) = first_row :: rest
    ∧ crop_type first_row = Some key
    ∧ classes_to_index self !! key = None.
Proof.
  intros Hda. split.
  - intros Hraise.
    destruct (call_cases self) as
      [e Hload|da' Hload Hbox|da' Hload Hbox Hov|da' row rest Hload Hov Hcrop
      |da' row rest crop Hload Hov Hcrop Hidx
      |da' row rest crop idx Hload Hov Hcrop Hidx].
    + congruence.
    + by rewrite (call_no_extent _ _ Hload Hbox) in Hraise.
    + by rewrite (call_no_overlap _ _ Hload Hbox Hov) in Hraise.
    + by rewrite (call_null_crop _ _ _ _ Hload Hov Hcrop) in Hraise.
    + rewrite (call_key_error _ _ _ _ _ Hload Hov Hcrop Hidx) in Hraise.
      injection Hraise as ->. assert (da' = da) as -> by congruence. eauto.
    + exfalso.
      destruct (call_labelled _ _ _ _ _ _ Hload Hov Hcrop Hidx)
        as (closest_lon & lon_idx & closest_lat & lat_idx & _ & _ & Hcall).
      cbv zeta in Hcall. rewrite Hcall in Hraise. clear Hcall.
      destruct (maxed_nan_to_num _ nan_fill (Some max_nan_ratio)); [done|].
      by destruct (negb is_test && calculate_normalizing_dict).
  - intros (row & rest & Hov & Hcrop & Hidx).
    by rewrite (call_key_error _ _ _ _ _ Hda Hov Hcrop Hidx).
Qed.

(** X9: on a tile that loads, a call raises [ValueError] exactly when one of
    the raster's coordinate vectors is empty. *)
Theorem value_error_iff (self : PVKenyaEngineer) (da : DataArray) :
  loaded da →
  (call self).1 = Raised ValueError ↔ da_x da = [] ∨ da_y da = [].
Proof.
  intros Hda. rewrite <- bounding_box_None. split.
  - intros Hraise.
    destruct (call_cases self) as
      [e Hload|da' Hload Hbox|da' Hload Hbox Hov|da' row rest Hload Hov Hcrop
      |da' row rest crop Hload Hov Hcrop Hidx
      |da' row rest crop idx Hload Hov Hcrop Hidx].
    + congruence.
    + congruence.
    + by rewrite (call_no_overlap _ _ Hload Hbox Hov) in Hraise.
    + by rewrite (call_null_crop _ _ _ _ Hload Hov Hcrop) in Hraise.
    + by rewrite (call_key_error _ _ _ _ _ Hload Hov Hcrop Hidx) in Hraise.
    + exfalso.
      destruct (call_labelled _ _ _ _ _ _ Hload Hov Hcrop Hidx)
        as (closest_lon & lon_idx & closest_lat & lat_idx & _ & _ & Hcall).
      cbv zeta in Hcall. rewrite Hcall in Hraise. clear Hcall.
      destruct (maxed_nan_to_num _ nan_fill (Some max_nan_ratio)); [done|].
      by destruct (negb is_test && calculate_normalizing_dict).
  - intros Hbox. by rewrite (call_no_extent _ _ Hda Hbox).
Qed.

(** X10: with statistics on and outside test mode, the arrays folded into the
    two accumulators are the very arrays the instance carries: the filled
    labelled array into the labelled accumulator, the filled surrounding
    array into the surrounding one. *)
Theorem statistics_fold_returned_arrays (self self' : PVKenyaEngineer)
    (instance : PVKenyaDataInstance) (extra : option ndarray) :
  call self = (Returned (Some instance, extra), self') →
  is_test = false →
  calculate_normalizing_dict = true →
  update_normalizing_values (normalizing_dict_interim self)
    (Some (labelled_array instance))
  = Returned (normalizing_dict_interim self')
  ∧ update_normalizing_values (surrounding_normalizing_dict_interim self)
      (surrounding_array instance)
    = Returned (surrounding_normalizing_dict_interim self').
Proof.
  intros Hret Htest Hcalc.
  destruct (produced_instance_state _ _ _ _ Hret) as (surrounding & Hsur & ->).
  rewrite Htest, Hcalc, Hsur. by simpl.
Qed.

(** X11: the row an instance is labelled from is the earliest row of the label
    table inside the tile's extent: every row before it lies outside. *)
Theorem instance_row_is_earliest (self self' : PVKenyaEngineer)
    (instance : PVKenyaDataInstance) (extra : option ndarray) :
  call self = (Returned (Some instance, extra), self') →
  ∃ da min_lon max_lon min_lat max_lat before row after,
    loaded da
    ∧ bounding_box da = Some (min_lon, max_lon, min_lat, max_lat)
    ∧ labels self = before ++ row :: after
    ∧ (∀ earlier, earlier ∈ before →
                  in_extent min_lon max_lon min_lat max_lat earlier = false)
    ∧ in_extent min_lon max_lon min_lat max_lat row = true
    ∧ lat row = label_lat instance
    ∧ lon row = label_lon instance
    ∧ crop_type row = Some (crop_label instance).
Proof.
  intros Hret.
  destruct (produced_instance_inv _ _ _ _ Hret)
    as (da & row & rest & lon_idx & lat_idx & Hload & Hov & Hcrop & Hidx
        & Hlat & Hlon & _).
  unfold overlapping_rows in Hov.
  destruct (bounding_box da) as [[[[min_lon max_lon] min_lat] max_lat]|] eqn:Hbox;
    [|done].
  destruct (filter_first_split _ _ _ _ Hov) as (before & after & Htbl & Hout & Hin & _).
  exists da, min_lon, max_lon, min_lat, max_lat, before, row, after. done.
Qed.

(** X12: a label that sits exactly on a raster coordinate pair, a corner of the
    tile included, is inside the tile's extent. *)
Theorem label_on_raster_overlaps (da : DataArray) (label_table : LabelTable)
    (row : LabelRow) :
  row ∈ label_table → lon row ∈ da_x da → lat row ∈ da_y da →
  row ∈ overlapping_rows da label_table.
Proof.
  intros Hrow Hlon Hlat. apply elem_of_overlapping_rows. split; [done|].
  destruct (bounding_box da) as [[[[min_lon max_lon] min_lat] max_lat]|] eqn:Hbox.
  - destruct (bounding_box_extremes _ _ _ _ _ Hbox) as [Hx Hy].
    destruct (Hx _ Hlon), (Hy _ Hlat).
    by exists min_lon, max_lon, min_lat, max_lat.
  - apply bounding_box_None in Hbox as [Hnil|Hnil];
      [rewrite Hnil in Hlon; inversion Hlon | rewrite Hnil in Hlat; inversion Hlat].
Qed.

(** X13: the label of a returned instance lies inside the tile's extent, and
    the instance's own coordinates are raster coordinates of the tile. *)
Theorem instance_inside_extent (self self' : PVKenyaEngineer)
    (instance : PVKenyaDataInstance) (extra : option ndarray) :
  call self = (Returned (Some instance, extra), self') →
  ∃ da min_lon max_lon min_lat max_lat,
    loaded da
    ∧ bounding_box da = Some (min_lon, max_lon, min_lat, max_lat)
    ∧ (min_lon <= label_lon instance)%Q ∧ (label_lon instance <= max_lon)%Q
    ∧ (min_lat <= label_lat instance)%Q ∧ (label_lat instance <= max_lat)%Q
    ∧ instance_lon instance ∈ da_x da
    ∧ instance_lat instance ∈ da_y da
    ∧ (min_lon <= instance_lon instance)%Q ∧ (instance_lon instance <= max_lon)%Q
    ∧ (min_lat <= instance_lat instance)%Q ∧ (instance_lat instance <= max_lat)%Q.
Proof.
  intros Hret.
  destruct (produced_instance_inv _ _ _ _ Hret)
    as (da & row & rest & lon_idx & lat_idx & Hload & Hov & Hcrop & Hidx
        & Hlat & Hlon & Hnlon & Hnlat & _).
  assert (row ∈ overlapping_rows da (labels self)) as Hin
    by (rewrite Hov; by left).
  apply elem_of_overlapping_rows in Hin
    as [_ (min_lon & max_lon & min_lat & max_lat & Hbox & ? & ? & ? & ?)].
  destruct (bounding_box_extremes _ _ _ _ _ Hbox) as [Hx Hy].
  assert (instance_lon instance ∈ da_x da) as Hmx.
  { destruct (da_x da) as [|x0 xs] eqn:Ex; [by vm_compute in Hnlon|].
    destruct (find_nearest_first_min (x0 :: xs) (lon row))
      as (closest & idx & Hfind & Hat & _); [done|].
    assert (closest = instance_lon instance) as <- by congruence.
    by eapply list_elem_of_lookup_2. }
  assert (instance_lat instance ∈ da_y da) as Hmy.
  { destruct (da_y da) as [|y0 ys] eqn:Ey; [by vm_compute in Hnlat|].
    destruct (find_nearest_first_min (y0 :: ys) (lat row))
      as (closest & idx & Hfind & Hat & _); [done|].
    assert (closest = instance_lat instance) as <- by congruence.
    by eapply list_elem_of_lookup_2. }
  destruct (Hx _ Hmx), (Hy _ Hmy).
  exists da, min_lon, max_lon, min_lat, max_lat. rewrite Hlat, Hlon. done.
Qed.

(** X14: every returned instance passed the quality gate: its labelled array is
    the derived series of its cell with the NaN entries filled, the NaN
    fraction of that series is within a numeric cap, and with a numeric
    fill value neither array of the instance holds a NaN. *)
Theorem returned_instance_quality (self self' : PVKenyaEngineer)
    (instance : PVKenyaDataInstance) (extra : option ndarray) :
  call self = (Returned (Some instance, extra), self') →
  ∃ da, loaded da
    ∧ let series :=
        with_indices add_ndvi add_ndwi
          (da_sel da (instance_lon instance) (instance_lat instance)) in
      labelled_array instance = nan_to_num series nan_fill
      ∧ length (labelled_array instance) = length series
      ∧ (∀ cap, max_nan_ratio = Num cap → (nan_ratio series <= cap)%Q)
      ∧ (isnan nan_fill = false →
         count_nan (labelled_array instance) = 0
         ∧ ∃ surrounding, surrounding_array instance = Some surrounding
                          ∧ count_nan surrounding = 0).
Proof.
  intros Hret.
  destruct (produced_instance_inv _ _ _ _ Hret)
    as (da & row & rest & lon_idx & lat_idx & Hload & Hov & Hcrop & Hidx
        & Hlat & Hlon & Hnlon & Hnlat & Hgate & Hsur & Hextra).
  exists da. split; [done|]. cbv zeta.
  pose proof (maxed_nan_to_num_Some _ _ _ _ Hgate) as Hfill.
  split; [done|]. split; [rewrite Hfill; apply length_nan_to_num|]. split.
  - intros cap ->. unfold maxed_nan_to_num, exceeds in Hgate.
    destruct (Qltb cap _) eqn:Hlt; [done|]. by apply Qltb_ge.
  - intros Hnum. split; [rewrite Hfill; by apply count_nan_nan_to_num|].
    eexists. split; [exact Hsur|]. by apply count_nan_nan_to_num.
Qed.

(** X15: rows appended to the label table of a session do not change what a
    tile yields: an instance extracted under the shorter table is extracted
    unchanged under the longer one. *)
Theorem appending_rows_keeps_instance (label_table more : LabelTable)
    (self self' other : PVKenyaEngineer)
    (instance : PVKenyaDataInstance) (extra : option ndarray) :
  session_of label_table self →
  session_of (label_table ++ more) other →
  call self = (Returned (Some instance, extra), self') →
  (call other).1 = Returned (Some instance, extra).
Proof.
  intros [Hlabels Hclasses] [Hlabels' Hclasses'] Hret.
  destruct (produced_instance_inv _ _ _ _ Hret)
    as (da & row & rest & lon_idx & lat_idx & Hload & Hov & Hcrop & Hidx
        & Hlat & Hlon & Hnlon & Hnlat & Hgate & Hsur & Hextra).
  assert (overlapping_rows da (labels other)
          = row :: rest ++ overlapping_rows da more) as Hov'.
  { rewrite Hlabels', <- Hlabels. unfold overlapping_rows in *.
    destruct (bounding_box da) as [[[[? ?] ?] ?]|]; [|done].
    by rewrite List.filter_app, Hov. }
  assert (classes_to_index other !! crop_label instance = Some (crop_int instance))
    as Hidx'.
  { rewrite Hclasses'. apply classes_to_index_app_stable. by rewrite <- Hclasses. }
  destruct (call_labelled _ _ _ _ _ _ Hload Hov' Hcrop Hidx')
    as (closest_lon & lon_idx' & closest_lat & lat_idx' & Hlon' & Hlat' & Hcall).
  cbv zeta in Hcall. rewrite Hcall. clear Hcall.
  assert (closest_lon = instance_lon instance ∧ lon_idx' = lon_idx) as [-> ->]
    by (split; congruence).
  assert (closest_lat = instance_lat instance ∧ lat_idx' = lat_idx) as [-> ->]
    by (split; congruence).
  rewrite Hgate. simpl. rewrite Hextra, <- Hsur, <- Hlat, <- Hlon.
  by destruct instance.
Qed.

(** X18: the accumulators are written, never read: the outcome of a call, result
    or exception, is the same for two engineers with the same label table
    and class index, whatever their accumulators hold.  In particular
    processing a tile a second time gives the outcome of the first time. *)
Theorem outcome_independent_of_accumulators (self other : PVKenyaEngineer) :
  labels other = labels self →
  classes_to_index other = classes_to_index self →
  (call other).1 = (call self).1
  ∧ (call (call self).2).1 = (call self).1.
Proof.
  assert (∀ a b, labels b = labels a → classes_to_index b = classes_to_index a →
                 (call b).1 = (call a).1
                 ∧ labels (call a).2 = labels a
                 ∧ classes_to_index (call a).2 = classes_to_index a) as Hview.
  { intros a b Hl Hc.
    destruct (call_cases a) as
      [e Hload|da Hload Hbox|da Hload Hbox Hov|da row rest Hload Hov Hcrop
      |da row rest crop Hload Hov Hcrop Hidx|da row rest crop idx Hload Hov Hcrop Hidx].
    - by rewrite (call_load_error _ a Hload), (call_load_error _ b Hload).
    - by rewrite (call_no_extent _ a Hload Hbox), (call_no_extent _ b Hload Hbox).
    - rewrite (call_no_overlap _ a Hload Hbox Hov).
      rewrite <- Hl in Hov. by rewrite (call_no_overlap _ b Hload Hbox Hov).
    - rewrite (call_null_crop _ a _ _ Hload Hov Hcrop).
      rewrite <- Hl in Hov. by rewrite (call_null_crop _ b _ _ Hload Hov Hcrop).
    - rewrite (call_key_error _ a _ _ _ Hload Hov Hcrop Hidx).
      rewrite <- Hl in Hov. rewrite <- Hc in Hidx.
      by rewrite (call_key_error _ b _ _ _ Hload Hov Hcrop Hidx).
    - destruct (call_labelled _ a _ _ _ _ Hload Hov Hcrop Hidx)
        as (closest_lon & lon_idx & closest_lat & lat_idx & Hlon & Hlat & Hcall).
      rewrite <- Hl in Hov. rewrite <- Hc in Hidx.
      destruct (call_labelled _ b _ _ _ _ Hload Hov Hcrop Hidx)
        as (closest_lon' & lon_idx' & closest_lat' & lat_idx' & Hlon' & Hlat' & Hcall').
      assert (closest_lon' = closest_lon ∧ lon_idx' = lon_idx) as [-> ->]
        by (split; congruence).
      assert (closest_lat' = closest_lat ∧ lat_idx' = lat_idx) as [-> ->]
        by (split; congruence).
      cbv zeta in Hcall, Hcall'. rewrite Hcall, Hcall'.
      destruct (maxed_nan_to_num _ nan_fill (Some max_nan_ratio));
        by destruct (negb is_test && calculate_normalizing_dict). }
  intros Hl Hc. split; [by apply Hview|].
  destruct (Hview self self eq_refl eq_refl) as (_ & Hl' & Hc').
  by apply Hview.
Qed.

End ProcessSingleFile.

(** * Calls on concrete tiles *)


Lemma class_lookup_total_witness :
  let label_table := [maize_row; tea_row] in
  let self := __init__ label_table in
  session_of label_table self
  ∧ load_tif (Some clean_tile) 10%Z 0%Z = Returned clean_tile
  ∧ (∀ first_row rest crop,
       overlapping_rows clean_tile label_table = first_row :: rest →
       crop_type first_row = Some crop →
       is_Some (classes_to_index self !! crop))
  ∧ ∀ key, (extract (Some clean_tile) (Num (1 # 2)) true false true self).1
           ≠ Raised (KeyError key).
Proof.
  intros label_table self.
  assert (session_of label_table self) as Hsession by done.
  assert (load_tif (Some clean_tile) 10%Z 0%Z = Returned clean_tile) as Hload by done.
  split; [exact Hsession|]. split; [exact Hload|].
  exact (class_lookup_total (H := grid_engineer) (Some clean_tile) (Num 0)
           (Num (1 # 2)) true false true 0%Z 10%Z false true 3%Z
           label_table self clean_tile Hsession Hload).
Defined.

Lemma first_overlapping_row_only_witness :
  let self := __init__ [maize_row; tea_row] in
  let result := extract (Some clean_tile) (Num (1 # 2)) true false true self in
  load_tif (Some clean_tile) 10%Z 0%Z = Returned clean_tile
  ∧ overlapping_rows clean_tile (labels self) = maize_row :: [tea_row]
  ∧ result = (Returned (Some maize_instance, Some [Num 1; Num 3]), result.2)
  ∧ label_lat maize_instance = lat maize_row
  ∧ label_lon maize_instance = lon maize_row
  ∧ crop_type maize_row = Some (crop_label maize_instance)
  ∧ ∀ other rest',
      overlapping_rows clean_tile (labels other) = maize_row :: rest' →
      classes_to_index other = classes_to_index self →
      (extract (Some clean_tile) (Num (1 # 2)) true false true other).1
      = Returned (Some maize_instance, Some [Num 1; Num 3]).
Proof.
  intros self result.
  assert (load_tif (Some clean_tile) 10%Z 0%Z = Returned clean_tile) as Hload by done.
  assert (overlapping_rows clean_tile (labels self) = maize_row :: [tea_row])
    as Hov by (by vm_compute).
  assert (result = (Returned (Some maize_instance, Some [Num 1; Num 3]), result.2))
    as Hret by (by vm_compute).
  split; [exact Hload|]. split; [exact Hov|]. split; [exact Hret|].
  exact (first_overlapping_row_only (H := grid_engineer) (Some clean_tile) (Num 0)
           (Num (1 # 2)) true false true 0%Z 10%Z false true 3%Z
           self result.2 clean_tile maize_row [tea_row] maize_instance
           (Some [Num 1; Num 3]) Hload Hov Hret).
Defined.

Lemma surrounding_always_filled_witness :
  let self := __init__ [maize_row] in
  let result := extract (Some hazy_tile) (Num 0) true false true self in
  result = (Returned (Some hazy_instance, Some [Num 1; Num 3]), result.2)
  ∧ ∃ da lon_idx lat_idx,
      load_tif (Some hazy_tile) 10%Z 0%Z = Returned da
      ∧ find_nearest (da_x da) (label_lon hazy_instance)
        = Returned (instance_lon hazy_instance, lon_idx)
      ∧ find_nearest (da_y da) (label_lat hazy_instance)
        = Returned (instance_lat hazy_instance, lat_idx)
      ∧ let surrounding_np :=
          with_indices true false (get_surrounding_pixels da lat_idx lon_idx) in
        surrounding_array hazy_instance
        = maxed_nan_to_num surrounding_np (Num 0) None
        ∧ surrounding_array hazy_instance
          = Some (nan_to_num surrounding_np (Num 0))
        ∧ ∀ i v, surrounding_np !! i = Some v →
                 surrounding_array hazy_instance ≫= (fun filled => filled !! i)
                 = Some (if isnan v then Num 0 else v).
Proof.
  intros self result.
  assert (result = (Returned (Some hazy_instance, Some [Num 1; Num 3]), result.2))
    as Hret by (by vm_compute).
  split; [exact Hret|].
  exact (surrounding_always_filled (H := grid_engineer) (Some hazy_tile) (Num 0)
           (Num 0) true false true 0%Z 10%Z false true 3%Z
           self result.2 hazy_instance (Some [Num 1; Num 3]) Hret).
Defined.



(** C1 as stated fails: the first row inside the tile has no crop type, a
    later row inside the tile has one, and no instance is produced. *)
Lemma labelled_iff_any_row_counterexample :
  let self := __init__ [unnamed_row; maize_row] in
  let result := extract (Some clean_tile) (Num (1 # 2)) true false true self in
  ¬ (produces_instance result ↔
     (∃ row, row ∈ overlapping_rows clean_tile (labels self))
     ∧ (∃ row, row ∈ overlapping_rows clean_tile (labels self)
               ∧ crop_type row ≠ None)).
Proof.
  intros self result [_ Hback].
  assert (overlapping_rows clean_tile (labels self) = [unnamed_row; maize_row])
    as Hov by (by vm_compute).
  destruct Hback as (instance & extra & self' & Hret).
  - rewrite Hov. split.
    + exists unnamed_row. by left.
    + exists maize_row. split; [by right; left | done].
  - vm_compute in Hret. discriminate.
Qed.

Lemma labelled_instance_iff_witness :
  let label_table := [unnamed_row; maize_row] in
  let self := __init__ label_table in
  let result := extract (Some clean_tile) (Num (1 # 2)) true false true self in
  session_of label_table self
  ∧ load_tif (Some clean_tile) 10%Z 0%Z = Returned clean_tile
  ∧ is_Some (bounding_box clean_tile)
  ∧ (produces_instance result ↔
     ∃ first_row rest crop closest_lon lon_idx closest_lat lat_idx,
       overlapping_rows clean_tile label_table = first_row :: rest
       ∧ crop_type first_row = Some crop
       ∧ find_nearest (da_x clean_tile) (lon first_row)
         = Returned (closest_lon, lon_idx)
       ∧ find_nearest (da_y clean_tile) (lat first_row)
         = Returned (closest_lat, lat_idx)
       ∧ is_Some (maxed_nan_to_num
                    (with_indices true false
                       (da_sel clean_tile closest_lon closest_lat))
                    (Num 0) (Some (Num (1 # 2)))))
  ∧ (overlapping_rows clean_tile label_table = []
     ∨ (∃ first_row rest,
          overlapping_rows clean_tile label_table = first_row :: rest
          ∧ crop_type first_row = None) →
     ∃ extra, result = (Returned (None, extra), self)).
Proof.
  intros label_table self result.
  assert (session_of label_table self) as Hsession by done.
  assert (load_tif (Some clean_tile) 10%Z 0%Z = Returned clean_tile) as Hload by done.
  assert (is_Some (bounding_box clean_tile)) as Hbox by (by eexists).
  split; [exact Hsession|]. split; [exact Hload|]. split; [exact Hbox|].
  pose proof (labelled_instance_iff (H := grid_engineer) (Some clean_tile) (Num 0)
                (Num (1 # 2)) true false true 0%Z 10%Z false true 3%Z
                label_table self clean_tile Hsession Hload Hbox)
    as (Hiff & Hnone & _).
  split; [exact Hiff | exact Hnone].
Defined.

(** C9 as stated fails: the tile holds one maize point and no NaN, but the
    label table names tea first, so maize has class 1. *)
Lemma end_to_end_crop_int_counterexample :
  let label_table := [far_tea_row; maize_row] in
  let self := __init__ label_table in
  let result := extract (Some clean_tile) (Num (1 # 2)) true false true self in
  overlapping_rows clean_tile label_table = [maize_row]
  ∧ crop_type maize_row = Some "maize"
  ∧ count_nan (concat (concat (grid_cells clean_tile))) = 0
  ∧ ¬ ∃ instance extra self',
        result = (Returned (Some instance, extra), self')
        ∧ crop_label instance = "maize"
        ∧ crop_int instance = 0.
Proof.
  intros label_table self result.
  split; [by vm_compute|]. split; [done|]. split; [done|].
  intros (instance & extra & self' & Hret & _ & Hint).
  vm_compute in Hret. injection Hret as <- _ _. discriminate.
Qed.

Lemma end_to_end_single_maize_witness :
  let label_table := [far_tea_row; maize_row] in
  let self := __init__ label_table in
  let result := extract (Some clean_tile) (Num (1 # 2)) true false true self in
  session_of label_table self
  ∧ load_tif (Some clean_tile) 10%Z 0%Z = Returned clean_tile
  ∧ overlapping_rows clean_tile label_table = [maize_row]
  ∧ crop_type maize_row = Some "maize"
  ∧ exceeds 0 (Num (1 # 2)) = false
  ∧ ∃ instance extra self',
      result = (Returned (Some instance, extra), self')
      ∧ crop_label instance = "maize"
      ∧ classes_to_index self !! "maize" = Some (crop_int instance)
      ∧ drop_none (unique_classes label_table) !! crop_int instance = Some "maize"
      ∧ (head (drop_none (unique_classes label_table)) = Some "maize" →
         crop_int instance = 0)
      ∧ labelled_array instance
        = with_indices true false
            (da_sel clean_tile (instance_lon instance) (instance_lat instance))
      ∧ is_Some (surrounding_array instance)
      ∧ n (normalizing_dict_interim self')
        = (n (normalizing_dict_interim self) + 1)%Z
      ∧ n (surrounding_normalizing_dict_interim self')
        = (n (surrounding_normalizing_dict_interim self) + 1)%Z.
Proof.
  intros label_table self result.
  assert (session_of label_table self) as Hsession by done.
  assert (load_tif (Some clean_tile) 10%Z 0%Z = Returned clean_tile) as Hload by done.
  assert (overlapping_rows clean_tile label_table = [maize_row]) as Hov
    by (by vm_compute).
  assert (crop_type maize_row = Some "maize") as Hcrop by done.
  assert (exceeds 0 (Num (1 # 2)) = false) as Hcap by done.
  assert (∀ closest_lon lon_idx closest_lat lat_idx,
            find_nearest (da_x clean_tile) (lon maize_row)
            = Returned (closest_lon, lon_idx) →
            find_nearest (da_y clean_tile) (lat maize_row)
            = Returned (closest_lat, lat_idx) →
            count_nan (with_indices true false
                         (da_sel clean_tile closest_lon closest_lat)) = 0)
    as Hclean.
  { intros closest_lon lon_idx closest_lat lat_idx Hlon Hlat.
    vm_compute in Hlon, Hlat.
    injection Hlon as <- _. injection Hlat as <- _. by vm_compute. }
  split; [exact Hsession|]. split; [exact Hload|]. split; [exact Hov|].
  split; [exact Hcrop|]. split; [exact Hcap|].
  exact (end_to_end_single_maize (H := grid_engineer) (Some clean_tile) (Num 0)
           (Num (1 # 2)) true false true 0%Z 10%Z false true 3%Z
           label_table self clean_tile maize_row Hsession Hload Hov Hcrop Hclean
           Hcap eq_refl eq_refl eq_refl).
Defined.

(** The NaN gate on a whole call: the series at (36, 0) of [cloudy_tile] is
    all NaN and is rejected under a cap of one half.  With statistics off
    the call returns no instance and both accumulators keep their state;
    with statistics on, lines 115-119 run before the [None] test of line
    121 and the surrounding accumulator takes a sample. *)
Example nan_rejection_without_statistics :
  extract (Some cloudy_tile) (Num (1 # 2)) false false true (__init__ [maize_row])
  = (Returned (None, Some [Num 0; Num 0]), __init__ [maize_row]).
Proof. by vm_compute. Qed.

Example nan_rejection_with_statistics :
  let result :=
    extract (Some cloudy_tile) (Num (1 # 2)) true false true (__init__ [maize_row]) in
  result.1 = Returned (None, Some [Num 0; Num 0])
  ∧ n (normalizing_dict_interim result.2) = 0%Z
  ∧ n (surrounding_normalizing_dict_interim result.2) = 1%Z.
Proof. by vm_compute. Qed.

(** * More on the class index *)

Lemma keys_imap_pair {A} (f : nat → nat) (l : list A) :
  (imap (fun i c => (c, f i)) l).*1 = l.
Proof.
  revert f. induction l as [|c l IH]; intros f; [done|]. simpl. f_equal.
  apply (IH (f ∘ S)).
Qed.

Lemma classes_to_index_size (label_table : LabelTable) :
  size (build_classes_to_index label_table)
  = length (drop_none (unique_classes label_table)).
Proof.
  pose proof (NoDup_classes label_table) as Hnd.
  set (classes := drop_none (unique_classes label_table)) in *.
  assert (build_classes_to_index label_table
          = list_to_map (imap (fun i c => (c, id i)) classes)) as ->.
  { apply map_eq. intros c. apply option_eq. intros i.
    rewrite classes_to_index_lookup. fold classes.
    rewrite <- elem_of_list_to_map.
    - rewrite elem_of_lookup_imap. split.
      + intros Hi. by exists i, c.
      + by intros (j & c' & [= -> ->] & Hj).
    - by rewrite keys_imap_pair. }
  rewrite map_size_list_to_map.
  - by rewrite length_imap.
  - by rewrite keys_imap_pair.
Qed.

(** X1: the class index is a bijection between the distinct non-null crop types
    and the ids below their number. *)
Theorem classes_to_index_bijective (label_table : LabelTable) :
  (∀ c1 c2 i,
     build_classes_to_index label_table !! c1 = Some i →
     build_classes_to_index label_table !! c2 = Some i → c1 = c2)
  ∧ size (build_classes_to_index label_table)
    = length (drop_none (unique_classes label_table))
  ∧ (∀ row c, row ∈ label_table → crop_type row = Some c →
       ∃ i, build_classes_to_index label_table !! c = Some i
            ∧ i < size (build_classes_to_index label_table)).
Proof.
  split; [|split; [apply classes_to_index_size|]].
  - intros c1 c2 i H1 H2. apply classes_to_index_lookup in H1, H2. congruence.
  - intros row c Hin Hc.
    assert (c ∈ drop_none (unique_classes label_table)) as Hmem.
    { apply elem_of_classes, list_elem_of_In, in_map_iff.
      exists row. split; [done | by apply list_elem_of_In]. }
    apply list_elem_of_lookup in Hmem as [i Hi]. exists i. split.
    + by apply classes_to_index_lookup.
    + rewrite classes_to_index_size. by apply lookup_lt_Some in Hi.
Qed.

(** X2: rows without a crop type take no id: the class index of a table is
    that of the table with those rows removed. *)
Theorem classes_to_index_ignores_null_rows (label_table : LabelTable) :
  build_classes_to_index (List.filter has_crop_type label_table)
  = build_classes_to_index label_table.
Proof.
  unfold build_classes_to_index, unique_classes, unique.
  rewrite !drop_none_unique_from. by rewrite drop_none_crop_types_filter.
Qed.

(** X3: rows appended to the label table never change the id of a crop type
    the table already had, and the new crop types get the next ids. *)
Theorem classes_to_index_append_only (l1 l2 : LabelTable) :
  (∀ c i, build_classes_to_index l1 !! c = Some i →
          build_classes_to_index (l1 ++ l2) !! c = Some i)
  ∧ (∀ c i, build_classes_to_index (l1 ++ l2) !! c = Some i →
            build_classes_to_index l1 !! c = None →
            (size (build_classes_to_index l1) <= i)%nat
            ∧ ∃ row, row ∈ l2 ∧ crop_type row = Some c).
Proof.
  split; [apply classes_to_index_app_stable|].
  intros c i Happ Hold.
  rewrite classes_to_index_size.
  assert (c ∈ drop_none (unique_classes (l1 ++ l2))) as Hmem.
  { apply classes_to_index_lookup in Happ. by eapply list_elem_of_lookup_2. }
  rewrite classes_to_index_lookup in Happ.
  destruct (classes_app l1 l2) as [new_classes Hnew]. rewrite Hnew in Happ.
  apply lookup_app_Some in Happ as [Hin|[Hge _]].
  { apply classes_to_index_lookup in Hin. congruence. }
  split; [done|].
  apply elem_of_classes in Hmem. rewrite map_app in Hmem.
  apply elem_of_app in Hmem as [Hin1|Hin2].
  - exfalso. apply elem_of_classes, list_elem_of_lookup in Hin1 as [j Hj].
    apply classes_to_index_lookup in Hj. congruence.
  - apply list_elem_of_In, in_map_iff in Hin2 as (row & Hc & Hrow).
    exists row. split; [by apply list_elem_of_In | done].
Qed.

(** * The persisted class index *)

Lemma dict_set_fresh (items : list (string * nat)) (key : string) (value : nat) :
  key ∉ items.*1 → dict_set items key value = items ++ [(key, value)].
Proof.
  induction items as [|[k v] items IH]; simpl; [done|].
  intros Hfresh. apply not_elem_of_cons in Hfresh as [Hne Hfresh].
  destruct (decide (k = key)) as [->|_]; [done|]. by rewrite IH.
Qed.

Lemma list_to_map_dict_set (items : list (string * nat)) (key : string)
    (value : nat) :
  list_to_map (dict_set items key value)
  =@{gmap string nat} <[key := value]> (list_to_map items).
Proof.
  induction items as [|[k v] items IH]; simpl; [done|].
  destruct (decide (k = key)) as [->|Hne]; simpl.
  - by rewrite insert_insert_eq.
  - rewrite IH. by apply insert_insert_ne.
Qed.

Lemma list_to_map_items_foldl (ps : list (nat * string))
    (items : list (string * nat)) :
  list_to_map (foldl (fun items p => dict_set items (snd p) (fst p)) items ps)
  =@{gmap string nat}
  foldl (fun d p => <[snd p := fst p]> d) (list_to_map items) ps.
Proof.
  revert items. induction ps as [|p ps IH]; intros items; simpl; [done|].
  by rewrite IH, list_to_map_dict_set.
Qed.

Lemma items_of_fresh_keys (cs : list string) (start : nat)
    (items : list (string * nat)) :
  NoDup cs → (∀ c, c ∈ cs → c ∉ items.*1) →
  foldl (fun items p => dict_set items (snd p) (fst p)) items
    (enumerate_from start cs)
  = items ++ imap (fun i c => (c, start + i)) cs.
Proof.
  revert start items. induction cs as [|c cs IH]; intros start items Hnd Hfresh; simpl.
  - by rewrite app_nil_r.
  - apply NoDup_cons in Hnd as [Hnin Hnd].
    rewrite dict_set_fresh by (apply Hfresh; by left).
    rewrite IH; [|done|].
    + rewrite <- app_assoc. simpl. rewrite Nat.add_0_r. do 2 f_equal.
      apply imap_ext. intros i x _. simpl. f_equal. lia.
    + intros c' Hc'. rewrite fmap_app, elem_of_app. simpl.
      rewrite list_elem_of_singleton. intros [Hin| ->].
      * revert Hin. apply Hfresh. by right.
      * done.
Qed.

(** X4: what [json.dump] is handed at line 38: the crop types in first-seen
    order, each with its position as id, no key twice; read back as a map
    the items are the class index. *)
Theorem persisted_class_index :
  (∀ ps, list_to_map (items_of_enumerated ps) = dict_of_enumerated ps)
  ∧ ∀ label_table : LabelTable,
      classes_to_index_items label_table
      = imap (fun i c => (c, i)) (drop_none (unique_classes label_table))
      ∧ NoDup (classes_to_index_items label_table).*1
      ∧ (classes_to_index_items label_table).*2
        = seq 0 (length (drop_none (unique_classes label_table)))
      ∧ list_to_map (classes_to_index_items label_table)
        = build_classes_to_index label_table.
Proof.
  split.
  - intros ps. unfold items_of_enumerated, dict_of_enumerated.
    by rewrite list_to_map_items_foldl.
  - intros label_table.
    assert (classes_to_index_items label_table
            = imap (fun i c => (c, i)) (drop_none (unique_classes label_table)))
      as Hitems.
    { unfold classes_to_index_items, items_of_enumerated, enumerate.
      rewrite items_of_fresh_keys; [done | apply NoDup_classes |].
      intros c _. apply not_elem_of_nil. }
    split; [done|]. rewrite Hitems. split; [|split].
    + change (fun i c => (c, i)) with (fun (i : nat) (c : string) => (c, id i)).
      rewrite keys_imap_pair. apply NoDup_classes.
    + generalize (drop_none (unique_classes label_table)). intros cs.
      change (fun i c => (c, i)) with (fun (i : nat) (c : string) => (c, 0 + i)).
      generalize 0. induction cs as [|c cs IH]; intros start; [done|]. simpl.
      rewrite Nat.add_0_r. f_equal. rewrite <- (IH (S start)). f_equal.
      apply imap_ext. intros i x _. simpl. f_equal. lia.
    + rewrite <- Hitems. unfold classes_to_index_items, build_classes_to_index.
      unfold items_of_enumerated, dict_of_enumerated.
      by rewrite list_to_map_items_foldl.
Qed.

(** * Calls that differ in their flags or their tile *)

Section Flags.
Context `{BaseEngineer}.
Variables (path_to_file : Path) (nan_fill max_nan_ratio : float).
Variables (add_ndvi add_ndwi : bool) (start_date : datetime) (days_per_timestep : Z).

Lemma labelled_result_of_other_flags
    (calc1 test1 sample1 : bool) (count1 : Z)
    (calc2 test2 sample2 : bool) (count2 : Z)
    (self self1 self2 : PVKenyaEngineer) (instance : PVKenyaDataInstance)
    (result2 : option PVKenyaDataInstance) (extra1 extra2 : option ndarray) :
  process_single_file path_to_file nan_fill max_nan_ratio add_ndvi add_ndwi
    calc1 start_date days_per_timestep test1 sample1 count1 self
  = (Returned (Some instance, extra1), self1) →
  process_single_file path_to_file nan_fill max_nan_ratio add_ndvi add_ndwi
    calc2 start_date days_per_timestep test2 sample2 count2 self
  = (Returned (result2, extra2), self2) →
  result2 = Some instance.
Proof.
  intros Hret1 Hret2.
  destruct (produced_instance_inv _ _ _ _ _ _ _ _ _ _ _ _ _ _ _ Hret1)
    as (da & row & rest & lon_idx & lat_idx & Hload & Hov & Hcrop & Hidx
        & Hlat & Hlon & Hnlon & Hnlat & Hgate & Hsur & _).
  destruct (call_labelled path_to_file nan_fill max_nan_ratio add_ndvi add_ndwi
              calc2 start_date days_per_timestep test2 sample2 count2
              _ _ _ _ _ _ Hload Hov Hcrop Hidx)
    as (closest_lon & lon_idx' & closest_lat & lat_idx' & Hlon' & Hlat' & Hcall).
  cbv zeta in Hcall. rewrite Hcall in Hret2. clear Hcall.
  assert (closest_lon = instance_lon instance ∧ lon_idx' = lon_idx) as [-> ->]
    by (split; congruence).
  assert (closest_lat = instance_lat instance ∧ lat_idx' = lat_idx) as [-> ->]
    by (split; congruence).
  rewrite Hgate in Hret2. injection Hret2 as <- _ _.
  rewrite <- Hsur, <- Hlat, <- Hlon. by destruct instance.
Qed.

(** X16: the statistics, test-mode and autoencoder switches do not alter the
    labelled result: two calls on the same tile and engineer that differ
    only in these switches and both return give the same instance or both
    give none. *)
Theorem labelled_result_independent_of_flags
    (calc1 test1 sample1 : bool) (count1 : Z)
    (calc2 test2 sample2 : bool) (count2 : Z)
    (self self1 self2 : PVKenyaEngineer)
    (result1 result2 : option PVKenyaDataInstance)
    (extra1 extra2 : option ndarray) :
  process_single_file path_to_file nan_fill max_nan_ratio add_ndvi add_ndwi
    calc1 start_date days_per_timestep test1 sample1 count1 self
  = (Returned (result1, extra1), self1) →
  process_single_file path_to_file nan_fill max_nan_ratio add_ndvi add_ndwi
    calc2 start_date days_per_timestep test2 sample2 count2 self
  = (Returned (result2, extra2), self2) →
  result1 = result2.
Proof.
  intros Hret1 Hret2. destruct result1 as [instance1|].
  - symmetry. by eapply labelled_result_of_other_flags.
  - destruct result2 as [instance2|]; [|done].
    by eapply labelled_result_of_other_flags.
Qed.

End Flags.

(** X17: within one session the integer label identifies the crop label: two
    instances, from whatever tiles and calls, have the same [crop_int]
    exactly when they have the same [crop_label], and [crop_int] decodes to
    [crop_label] in the first-seen list of crop types. *)
Theorem crop_int_identifies_crop_label `{BaseEngineer}
    (label_table : LabelTable)
    (path1 path2 : Path) (fill1 fill2 cap1 cap2 : float)
    (ndvi1 ndvi2 ndwi1 ndwi2 calc1 calc2 : bool)
    (start1 start2 : datetime) (days1 days2 : Z)
    (test1 test2 sample1 sample2 : bool) (count1 count2 : Z)
    (self1 self1' self2 self2' : PVKenyaEngineer)
    (instance1 instance2 : PVKenyaDataInstance)
    (extra1 extra2 : option ndarray) :
  session_of label_table self1 →
  session_of label_table self2 →
  process_single_file path1 fill1 cap1 ndvi1 ndwi1 calc1 start1 days1 test1
    sample1 count1 self1
  = (Returned (Some instance1, extra1), self1') →
  process_single_file path2 fill2 cap2 ndvi2 ndwi2 calc2 start2 days2 test2
    sample2 count2 self2
  = (Returned (Some instance2, extra2), self2') →
  (crop_int instance1 = crop_int instance2 ↔
   crop_label instance1 = crop_label instance2)
  ∧ drop_none (unique_classes label_table) !! crop_int instance1
    = Some (crop_label instance1)
  ∧ crop_int instance1 < length (drop_none (unique_classes label_table)).
Proof.
  intros [_ Hc1] [_ Hc2] Hret1 Hret2.
  destruct (produced_instance_inv _ _ _ _ _ _ _ _ _ _ _ _ _ _ _ Hret1)
    as (_ & _ & _ & _ & _ & _ & _ & _ & Hidx1 & _).
  destruct (produced_instance_inv _ _ _ _ _ _ _ _ _ _ _ _ _ _ _ Hret2)
    as (_ & _ & _ & _ & _ & _ & _ & _ & Hidx2 & _).
  rewrite Hc1 in Hidx1. rewrite Hc2 in Hidx2.
  apply classes_to_index_lookup in Hidx1, Hidx2.
  split; [|split; [done | by apply lookup_lt_Some in Hidx1]].
  split.
  - intros Heq. rewrite Heq in Hidx1. congruence.
  - intros Heq. rewrite Heq in Hidx1.
    eapply NoDup_lookup; [apply NoDup_classes | exact Hidx1 | exact Hidx2].
Qed.

(** * Further calls on concrete tiles *)

Lemma raised_call_leaves_self_witness :
  let self := __init__ [maize_row] in
  (extract None (Num (1 # 2)) true false true self).1 = Raised IOError
  ∧ (extract None (Num (1 # 2)) true false true self).2 = self.
Proof.
  intros self.
  assert ((extract None (Num (1 # 2)) true false true self).1 = Raised IOError)
    as Hraise by done.
  split; [exact Hraise|].
  exact (raised_call_leaves_self (H := grid_engineer) None (Num 0) (Num (1 # 2))
           true false true 0%Z 10%Z false true 3%Z self IOError Hraise).
Defined.

Lemma quiet_call_returns_witness :
  let label_table := [maize_row; tea_row] in
  let self := __init__ label_table in
  session_of label_table self
  ∧ load_tif (Some clean_tile) 10%Z 0%Z = Returned clean_tile
  ∧ is_Some (bounding_box clean_tile)
  ∧ (true = true ∨ true = false)
  ∧ ∃ result extra,
      extract (Some clean_tile) (Num (1 # 2)) true true true self
      = (Returned (result, extra), self).
Proof.
  intros label_table self.
  assert (session_of label_table self) as Hsession by done.
  assert (load_tif (Some clean_tile) 10%Z 0%Z = Returned clean_tile) as Hload by done.
  assert (is_Some (bounding_box clean_tile)) as Hbox by (by eexists).
  assert (true = true ∨ true = false) as Hquiet by (by left).
  split; [exact Hsession|]. split; [exact Hload|]. split; [exact Hbox|].
  split; [exact Hquiet|].
  exact (quiet_call_returns (H := grid_engineer) (Some clean_tile) (Num 0)
           (Num (1 # 2)) true false true 0%Z 10%Z true true 3%Z
           label_table self clean_tile Hsession Hload Hbox Hquiet).
Defined.

Lemma key_error_iff_witness :
  load_tif (Some clean_tile) 10%Z 0%Z = Returned clean_tile
  ∧ ((extract (Some clean_tile) (Num (1 # 2)) true false true stale_engineer).1
     = Raised (KeyError "maize") ↔
     ∃ first_row rest,
       overlapping_rows clean_tile (labels stale_engineer) = first_row :: rest
       ∧ crop_type first_row = Some "maize"
       ∧ classes_to_index stale_engineer !! "maize" = None).
Proof.
  assert (load_tif (Some clean_tile) 10%Z 0%Z = Returned clean_tile) as Hload by done.
  split; [exact Hload|].
  exact (key_error_iff (H := grid_engineer) (Some clean_tile) (Num 0)
           (Num (1 # 2)) true false true 0%Z 10%Z false true 3%Z
           stale_engineer clean_tile "maize" Hload).
Defined.

Lemma value_error_iff_witness :
  let self := __init__ [maize_row] in
  load_tif (Some empty_tile) 10%Z 0%Z = Returned empty_tile
  ∧ ((extract (Some empty_tile) (Num (1 # 2)) true false true self).1
     = Raised ValueError ↔
     da_x empty_tile = [] ∨ da_y empty_tile = []).
Proof.
  intros self.
  assert (load_tif (Some empty_tile) 10%Z 0%Z = Returned empty_tile) as Hload by done.
  split; [exact Hload|].
  exact (value_error_iff (H := grid_engineer) (Some empty_tile) (Num 0)
           (Num (1 # 2)) true false true 0%Z 10%Z false true 3%Z
           self empty_tile Hload).
Defined.

Lemma statistics_fold_returned_arrays_witness :
  let self := __init__ [maize_row] in
  let result := extract (Some clean_tile) (Num (1 # 2)) true false true self in
  result = (Returned (Some maize_instance, Some [Num 1; Num 3]), result.2)
  ∧ update_normalizing_values (normalizing_dict_interim self)
      (Some (labelled_array maize_instance))
    = Returned (normalizing_dict_interim result.2)
  ∧ update_normalizing_values (surrounding_normalizing_dict_interim self)
      (surrounding_array maize_instance)
    = Returned (surrounding_normalizing_dict_interim result.2).
Proof.
  intros self result.
  assert (result = (Returned (Some maize_instance, Some [Num 1; Num 3]), result.2))
    as Hret by (by vm_compute).
  split; [exact Hret|].
  exact (statistics_fold_returned_arrays (H := grid_engineer) (Some clean_tile)
           (Num 0) (Num (1 # 2)) true false true 0%Z 10%Z false true 3%Z
           self result.2 maize_instance (Some [Num 1; Num 3]) Hret
           eq_refl eq_refl).
Defined.

Lemma instance_row_is_earliest_witness :
  let self := __init__ [far_maize_row; maize_row; tea_row] in
  let result := extract (Some clean_tile) (Num (1 # 2)) true false true self in
  result = (Returned (Some maize_instance, Some [Num 1; Num 3]), result.2)
  ∧ ∃ da min_lon max_lon min_lat max_lat before row after,
      load_tif (Some clean_tile) 10%Z 0%Z = Returned da
      ∧ bounding_box da = Some (min_lon, max_lon, min_lat, max_lat)
      ∧ labels self = before ++ row :: after
      ∧ (∀ earlier, earlier ∈ before →
                    in_extent min_lon max_lon min_lat max_lat earlier = false)
      ∧ in_extent min_lon max_lon min_lat max_lat row = true
      ∧ lat row = label_lat maize_instance
      ∧ lon row = label_lon maize_instance
      ∧ crop_type row = Some (crop_label maize_instance).
Proof.
  intros self result.
  assert (result = (Returned (Some maize_instance, Some [Num 1; Num 3]), result.2))
    as Hret by (by vm_compute).
  split; [exact Hret|].
  exact (instance_row_is_earliest (H := grid_engineer) (Some clean_tile)
           (Num 0) (Num (1 # 2)) true false true 0%Z 10%Z false true 3%Z
           self result.2 maize_instance (Some [Num 1; Num 3]) Hret).
Defined.

Lemma label_on_raster_overlaps_witness :
  corner_row ∈ [maize_row; corner_row]
  ∧ lon corner_row ∈ da_x clean_tile
  ∧ lat corner_row ∈ da_y clean_tile
  ∧ corner_row ∈ overlapping_rows clean_tile [maize_row; corner_row].
Proof.
  assert (corner_row ∈ [maize_row; corner_row]) as Hrow by (right; left).
  assert (lon corner_row ∈ da_x clean_tile) as Hlon by (right; left).
  assert (lat corner_row ∈ da_y clean_tile) as Hlat by (right; left).
  split; [exact Hrow|]. split; [exact Hlon|]. split; [exact Hlat|].
  exact (label_on_raster_overlaps (H := grid_engineer) clean_tile
           [maize_row; corner_row] corner_row Hrow Hlon Hlat).
Defined.

Lemma instance_inside_extent_witness :
  let self := __init__ [maize_row] in
  let result := extract (Some clean_tile) (Num (1 # 2)) true false true self in
  result = (Returned (Some maize_instance, Some [Num 1; Num 3]), result.2)
  ∧ ∃ da min_lon max_lon min_lat max_lat,
      load_tif (Some clean_tile) 10%Z 0%Z = Returned da
      ∧ bounding_box da = Some (min_lon, max_lon, min_lat, max_lat)
      ∧ (min_lon <= label_lon maize_instance)%Q
      ∧ (label_lon maize_instance <= max_lon)%Q
      ∧ (min_lat <= label_lat maize_instance)%Q
      ∧ (label_lat maize_instance <= max_lat)%Q
      ∧ instance_lon maize_instance ∈ da_x da
      ∧ instance_lat maize_instance ∈ da_y da
      ∧ (min_lon <= instance_lon maize_instance)%Q
      ∧ (instance_lon maize_instance <= max_lon)%Q
      ∧ (min_lat <= instance_lat maize_instance)%Q
      ∧ (instance_lat maize_instance <= max_lat)%Q.
Proof.
  intros self result.
  assert (result = (Returned (Some maize_instance, Some [Num 1; Num 3]), result.2))
    as Hret by (by vm_compute).
  split; [exact Hret|].
  exact (instance_inside_extent (H := grid_engineer) (Some clean_tile)
           (Num 0) (Num (1 # 2)) true false true 0%Z 10%Z false true 3%Z
           self result.2 maize_instance (Some [Num 1; Num 3]) Hret).
Defined.

Lemma returned_instance_quality_witness :
  let self := __init__ [maize_row] in
  let result := extract (Some hazy_tile) (Num 0) true false true self in
  result = (Returned (Some hazy_instance, Some [Num 1; Num 3]), result.2)
  ∧ ∃ da, load_tif (Some hazy_tile) 10%Z 0%Z = Returned da
      ∧ let series :=
          with_indices true false
            (da_sel da (instance_lon hazy_instance) (instance_lat hazy_instance)) in
        labelled_array hazy_instance = nan_to_num series (Num 0)
        ∧ length (labelled_array hazy_instance) = length series
        ∧ (∀ cap, Num 0 = Num cap → (nan_ratio series <= cap)%Q)
        ∧ (isnan (Num 0) = false →
           count_nan (labelled_array hazy_instance) = 0
           ∧ ∃ surrounding, surrounding_array hazy_instance = Some surrounding
                            ∧ count_nan surrounding = 0).
Proof.
  intros self result.
  assert (result = (Returned (Some hazy_instance, Some [Num 1; Num 3]), result.2))
    as Hret by (by vm_compute).
  split; [exact Hret|].
  exact (returned_instance_quality (H := grid_engineer) (Some hazy_tile)
           (Num 0) (Num 0) true false true 0%Z 10%Z false true 3%Z
           self result.2 hazy_instance (Some [Num 1; Num 3]) Hret).
Defined.

Lemma appending_rows_keeps_instance_witness :
  let label_table := [maize_row] in
  let more := [tea_row; far_tea_row] in
  let self := __init__ label_table in
  let other := __init__ (label_table ++ more) in
  let result := extract (Some clean_tile) (Num (1 # 2)) true false true self in
  session_of label_table self
  ∧ session_of (label_table ++ more) other
  ∧ result = (Returned (Some maize_instance, Some [Num 1; Num 3]), result.2)
  ∧ (extract (Some clean_tile) (Num (1 # 2)) true false true other).1
    = Returned (Some maize_instance, Some [Num 1; Num 3]).
Proof.
  intros label_table more self other result.
  assert (session_of label_table self) as Hs by done.
  assert (session_of (label_table ++ more) other) as Ho by done.
  assert (result = (Returned (Some maize_instance, Some [Num 1; Num 3]), result.2))
    as Hret by (by vm_compute).
  split; [exact Hs|]. split; [exact Ho|]. split; [exact Hret|].
  exact (appending_rows_keeps_instance (H := grid_engineer) (Some clean_tile)
           (Num 0) (Num (1 # 2)) true false true 0%Z 10%Z false true 3%Z
           label_table more self result.2 other maize_instance
           (Some [Num 1; Num 3]) Hs Ho Hret).
Defined.

Lemma labelled_result_independent_of_flags_witness :
  let self := __init__ [maize_row] in
  let result1 := extract (Some clean_tile) (Num (1 # 2)) true false true self in
  let result2 := extract (Some clean_tile) (Num (1 # 2)) false true false self in
  result1 = (Returned (Some maize_instance, Some [Num 1; Num 3]), result1.2)
  ∧ result2 = (Returned (Some maize_instance, None), result2.2)
  ∧ Some maize_instance = Some maize_instance.
Proof.
  intros self result1 result2.
  assert (result1 = (Returned (Some maize_instance, Some [Num 1; Num 3]), result1.2))
    as Hret1 by (by vm_compute).
  assert (result2 = (Returned (Some maize_instance, None), result2.2))
    as Hret2 by (by vm_compute).
  split; [exact Hret1|]. split; [exact Hret2|].
  exact (labelled_result_independent_of_flags (H := grid_engineer)
           (Some clean_tile) (Num 0) (Num (1 # 2)) true false 0%Z 10%Z
           true false true 3%Z false true false 3%Z
           self result1.2 result2.2 (Some maize_instance) (Some maize_instance)
           (Some [Num 1; Num 3]) None Hret1 Hret2).
Defined.

Lemma crop_int_identifies_crop_label_witness :
  let label_table := [maize_row] in
  let self := __init__ label_table in
  let result1 := extract (Some clean_tile) (Num (1 # 2)) true false true self in
  let result2 := extract (Some hazy_tile) (Num 0) true false true self in
  session_of label_table self
  ∧ result1 = (Returned (Some maize_instance, Some [Num 1; Num 3]), result1.2)
  ∧ result2 = (Returned (Some hazy_instance, Some [Num 1; Num 3]), result2.2)
  ∧ (crop_int maize_instance = crop_int hazy_instance ↔
     crop_label maize_instance = crop_label hazy_instance)
  ∧ drop_none (unique_classes label_table) !! crop_int maize_instance
    = Some (crop_label maize_instance)
  ∧ crop_int maize_instance < length (drop_none (unique_classes label_table)).
Proof.
  intros label_table self result1 result2.
  assert (session_of label_table self) as Hs by done.
  assert (result1 = (Returned (Some maize_instance, Some [Num 1; Num 3]), result1.2))
    as Hret1 by (by vm_compute).
  assert (result2 = (Returned (Some hazy_instance, Some [Num 1; Num 3]), result2.2))
    as Hret2 by (by vm_compute).
  split; [exact Hs|]. split; [exact Hret1|]. split; [exact Hret2|].
  exact (crop_int_identifies_crop_label (H := grid_engineer) label_table
           (Some clean_tile) (Some hazy_tile) (Num 0) (Num 0) (Num (1 # 2)) (Num 0)
           true true false false true true 0%Z 0%Z 10%Z 10%Z
           false false true true 3%Z 3%Z
           self result1.2 self result2.2 maize_instance hazy_instance
           (Some [Num 1; Num 3]) (Some [Num 1; Num 3]) Hs Hs Hret1 Hret2).
Defined.

Lemma outcome_independent_of_accumulators_witness :
  let self := __init__ [maize_row] in
  let other := (extract (Some hazy_tile) (Num 0) true false true self).2 in
  labels other = labels self
  ∧ classes_to_index other = classes_to_index self
  ∧ n (normalizing_dict_interim other) = 1%Z
  ∧ (extract (Some clean_tile) (Num (1 # 2)) true false true other).1
    = (extract (Some clean_tile) (Num (1 # 2)) true false true self).1
  ∧ (extract (Some clean_tile) (Num (1 # 2)) true false true
       (extract (Some clean_tile) (Num (1 # 2)) true false true self).2).1
    = (extract (Some clean_tile) (Num (1 # 2)) true false true self).1.
Proof.
  intros self other.
  assert (labels other = labels self) as Hl by (by vm_compute).
  assert (classes_to_index other = classes_to_index self) as Hc by (by vm_compute).
  split; [exact Hl|]. split; [exact Hc|]. split; [by vm_compute|].
  exact (outcome_independent_of_accumulators (H := grid_engineer)
           (Some clean_tile) (Num 0) (Num (1 # 2)) true false true 0%Z 10%Z
           false true 3%Z self other Hl Hc).
Defined.
